(** * ai-voice-banking: the local conversation store and the voice loop

    A shallow embedding of [database.py] (the SQLite-backed store of user
    profiles, conversation messages and sessions) and of the control flow of
    [main] in [app_og.py], with the properties of the store contract.

    Modelling conventions.
    - A table is the list of its rows in rowid order, the order of the
      table's B-tree.  All three tables declare
      [id INTEGER PRIMARY KEY AUTOINCREMENT]; the [sqlite_sequence] counter of
      each table is part of the database state.
    - [datetime.now().isoformat()] is an input of every writing operation
      (the argument [now]).
    - Every function opens its own connection, runs its statements, commits
      and closes; the database value threaded through the operations is the
      committed content of [memory.db].
    - An integer bound to a statement parameter must fit SQLite's signed
      64-bit INTEGER; the [sqlite3] binding raises [OverflowError] otherwise.
    - Exhaustion of resources (disk space, the 64-bit rowid space) is outside
      the model. *)

From Stdlib Require Import ZArith List String Ascii Bool Lia DecimalString.
From Stdlib Require Import Sorting.Sorted.
Import ListNotations.

Local Open Scope string_scope.
Local Open Scope Z_scope.

(** ** Python values and exceptions *)

(** The exception classes [main] distinguishes: [except KeyboardInterrupt],
    [except Exception], and the remaining [BaseException]s, which no handler
    of the program catches. *)
Inductive exn : Type :=
| KeyboardInterrupt
| SystemExit
| Exception (name : string).

Definition is_Exception (e : exn) : bool :=
  match e with
  | Exception _ => true
  | _ => false
  end.

(** The result of a call: a value or a raised exception. *)
Inductive result (A : Type) : Type :=
| Ok (a : A)
| Raise (e : exn).

Arguments Ok {A} a.
Arguments Raise {A} e.

(** Truthiness of an optional string argument ([if language:]): [None] and
    the empty string are falsy. *)
Definition truthy (o : option string) : bool :=
  match o with
  | None => false
  | Some s => negb (String.eqb s "")
  end.

Module Database.

(** ** Schema *)

Record users_row : Type := mk_users_row {
  users_id : Z;
  users_user_id : string;
  users_name : string;
  users_preferred_language : string;
  users_voice_tone : string;
  users_created_at : string
}.

Record conversation_row : Type := mk_conversation_row {
  conversation_id : Z;
  conversation_user_id : string;
  conversation_role : string;
  conversation_message : string;
  conversation_timestamp : string
}.

Record sessions_row : Type := mk_sessions_row {
  sessions_id : Z;
  sessions_user_id : string;
  sessions_session_start : string;
  sessions_session_end : option string   (* NULL while the session is open *)
}.

Record db : Type := mk_db {
  users : list users_row;
  users_seq : Z;
  conversation : list conversation_row;
  conversation_seq : Z;
  sessions : list sessions_row;
  sessions_seq : Z
}.

(** ** SQLite primitives *)

Definition max_rowid (ids : list Z) : Z := fold_right Z.max 0 ids.

(** AUTOINCREMENT: one more than the largest rowid that ever existed in the
    table (the larger of the [sqlite_sequence] counter and the largest rowid
    present). *)
Definition next_rowid (seq : Z) (ids : list Z) : Z :=
  Z.max seq (max_rowid ids) + 1.

Definition SQLITE_INT_MIN : Z := - 2 ^ 63.
Definition SQLITE_INT_MAX : Z := 2 ^ 63 - 1.

(** Binding a Python [int] to a statement parameter. *)
Definition bind_int (n : Z) : result Z :=
  if (SQLITE_INT_MIN <=? n) && (n <=? SQLITE_INT_MAX)
  then Ok n
  else Raise (Exception "OverflowError").

(** [LIMIT n]: a negative [n] puts no upper bound on the number of rows. *)
Definition sql_limit {A : Type} (n : Z) (rows : list A) : list A :=
  if n <? 0 then rows else firstn (Z.to_nat n) rows.

Section OrderBy.
Context {A : Type} (key : A -> Z).

Fixpoint insert_desc (r : A) (l : list A) : list A :=
  match l with
  | [] => [r]
  | x :: xs => if key x <? key r then r :: l else x :: insert_desc r xs
  end.

(** [ORDER BY key DESC]. *)
Fixpoint order_by_desc (l : list A) : list A :=
  match l with
  | [] => []
  | r :: rs => insert_desc r (order_by_desc rs)
  end.
End OrderBy.

(** ** [init_db] *)

Definition empty_db : db := mk_db [] 0 [] 0 [] 0.

(** [CREATE TABLE IF NOT EXISTS] three times: a fresh file ([None]) gets the
    three empty tables, an existing database is left as it is. *)
Definition init_db (file : option db) : db :=
  match file with
  | None => empty_db
  | Some d => d
  end.

(** ** Profiles *)

Definition set_users (d : db) (rows : list users_row) (seq : Z) : db :=
  mk_db rows seq (conversation d) (conversation_seq d)
        (sessions d) (sessions_seq d).

Definition has_user (user_id : string) (d : db) : bool :=
  existsb (fun r => String.eqb (users_user_id r) user_id) (users d).

(** [INSERT OR IGNORE INTO users ...]: the rowid is generated (and the
    sequence counter advanced) before the UNIQUE constraint on [user_id] is
    checked; on a conflict the row is dropped. *)
Definition create_user_profile
    (user_id name language tone now : string) (d : db) : db :=
  let rid := next_rowid (users_seq d) (map users_id (users d)) in
  if has_user user_id d
  then set_users d (users d) rid
  else set_users d
         (users d ++ [mk_users_row rid user_id name language tone now]) rid.

Record profile : Type := mk_profile {
  profile_name : string;
  profile_language : string;
  profile_tone : string
}.

Definition get_user_profile (user_id : string) (d : db) : option profile :=
  match find (fun r => String.eqb (users_user_id r) user_id) (users d) with
  | Some r =>
      Some (mk_profile (users_name r) (users_preferred_language r)
                       (users_voice_tone r))
  | None => None
  end.

Definition set_preferred_language (language : string) (r : users_row)
  : users_row :=
  mk_users_row (users_id r) (users_user_id r) (users_name r) language
               (users_voice_tone r) (users_created_at r).

Definition set_voice_tone (tone : string) (r : users_row) : users_row :=
  mk_users_row (users_id r) (users_user_id r) (users_name r)
               (users_preferred_language r) tone (users_created_at r).

(** [UPDATE users SET preferred_language = ? WHERE user_id = ?]. *)
Definition update_language (user_id language : string) (d : db) : db :=
  set_users d
    (map (fun r => if String.eqb (users_user_id r) user_id
                   then set_preferred_language language r else r) (users d))
    (users_seq d).

(** [UPDATE users SET voice_tone = ? WHERE user_id = ?]. *)
Definition update_tone (user_id tone : string) (d : db) : db :=
  set_users d
    (map (fun r => if String.eqb (users_user_id r) user_id
                   then set_voice_tone tone r else r) (users d))
    (users_seq d).

Definition update_user_preferences
    (user_id : string) (language tone : option string) (d : db) : db :=
  let d1 :=
    match language with
    | Some l => if truthy language then update_language user_id l d else d
    | None => d
    end in
  match tone with
  | Some t => if truthy tone then update_tone user_id t d1 else d1
  | None => d1
  end.

(** ** Sessions *)

Definition set_sessions (d : db) (rows : list sessions_row) (seq : Z) : db :=
  mk_db (users d) (users_seq d) (conversation d) (conversation_seq d)
        rows seq.

(** [INSERT INTO sessions (user_id, session_start)]: [session_end] is NULL. *)
Definition start_session (user_id now : string) (d : db) : db :=
  let rid := next_rowid (sessions_seq d) (map sessions_id (sessions d)) in
  set_sessions d (sessions d ++ [mk_sessions_row rid user_id now None]) rid.

Definition is_open_for (user_id : string) (r : sessions_row) : bool :=
  String.eqb (sessions_user_id r) user_id &&
  match sessions_session_end r with
  | None => true
  | Some _ => false
  end.

Definition set_session_end (now : string) (r : sessions_row) : sessions_row :=
  mk_sessions_row (sessions_id r) (sessions_user_id r)
                  (sessions_session_start r) (Some now).

(** [UPDATE sessions SET session_end = ?
     WHERE user_id = ? AND session_end IS NULL]. *)
Definition end_session (user_id now : string) (d : db) : db :=
  set_sessions d
    (map (fun r => if is_open_for user_id r then set_session_end now r else r)
         (sessions d))
    (sessions_seq d).

(** ** Conversation log *)

Definition set_conversation (d : db) (rows : list conversation_row) (seq : Z)
  : db :=
  mk_db (users d) (users_seq d) rows seq (sessions d) (sessions_seq d).

Definition save_message (user_id role message now : string) (d : db) : db :=
  let rid :=
    next_rowid (conversation_seq d) (map conversation_id (conversation d)) in
  set_conversation d
    (conversation d ++ [mk_conversation_row rid user_id role message now]) rid.

(** One entry of the list [get_recent_context] returns:
    [{"role": ..., "content": ...}]. *)
Record context_msg : Type := mk_context_msg {
  role : string;
  content : string
}.

Definition to_context_msg (r : conversation_row) : context_msg :=
  mk_context_msg (conversation_role r) (conversation_message r).

Definition of_user (user_id : string) (r : conversation_row) : bool :=
  String.eqb (conversation_user_id r) user_id.

(** [SELECT role, message FROM conversation WHERE user_id = ?
     ORDER BY id DESC LIMIT ?], for a limit already bound. *)
Definition select_recent (user_id : string) (limit : Z) (d : db)
  : list conversation_row :=
  sql_limit limit
    (order_by_desc conversation_id (filter (of_user user_id) (conversation d))).

Definition get_recent_context (user_id : string) (limit : Z) (d : db)
  : result (list context_msg) :=
  match bind_int limit with
  | Raise e => Raise e
  | Ok l =>
      let rows := select_recent user_id l d in
      let rows := rev rows in
      Ok (map to_context_msg rows)
  end.

(** ** Well-formed databases

    What the schema guarantees of a stored database: rowids are the keys of
    the table B-tree (strictly increasing along the table), and [user_id] is
    UNIQUE in [users]. *)

Definition wf (d : db) : Prop :=
  StronglySorted Z.lt (map users_id (users d)) /\
  StronglySorted Z.lt (map conversation_id (conversation d)) /\
  StronglySorted Z.lt (map sessions_id (sessions d)) /\
  NoDup (map users_user_id (users d)).

(** All messages of a user, oldest first. *)
Definition messages_of (user_id : string) (d : db) : list context_msg :=
  map to_context_msg (filter (of_user user_id) (conversation d)).

(** The last [n] elements of a list. *)
Definition lastn {A : Type} (n : nat) (l : list A) : list A :=
  skipn (List.length l - n) l.

Definition count_users (user_id : string) (d : db) : nat :=
  List.length
    (filter (fun r => String.eqb (users_user_id r) user_id) (users d)).

Definition open_sessions (user_id : string) (d : db) : list sessions_row :=
  filter (is_open_for user_id) (sessions d).

(** A call of one of the functions of [database.py]. *)
Inductive call : Type :=
| Call_init_db
| Call_create_user_profile (user_id name language tone now : string)
| Call_get_user_profile (user_id : string)
| Call_update_user_preferences (user_id : string)
                               (language tone : option string)
| Call_start_session (user_id now : string)
| Call_end_session (user_id now : string)
| Call_save_message (user_id role message now : string)
| Call_get_recent_context (user_id : string) (limit : Z).

(** The stored database after a call.  The two readers run a SELECT and
    close their connection. *)
Definition run_call (c : call) (d : db) : db :=
  match c with
  | Call_init_db => init_db (Some d)
  | Call_create_user_profile user_id name language tone now =>
      create_user_profile user_id name language tone now d
  | Call_get_user_profile user_id =>
      let _ := get_user_profile user_id d in d
  | Call_update_user_preferences user_id language tone =>
      update_user_preferences user_id language tone d
  | Call_start_session user_id now => start_session user_id now d
  | Call_end_session user_id now => end_session user_id now d
  | Call_save_message user_id role message now =>
      save_message user_id role message now d
  | Call_get_recent_context user_id limit =>
      let _ := get_recent_context user_id limit d in d
  end.

Definition run_calls (cs : list call) (d : db) : db :=
  fold_left (fun d c => run_call c d) cs d.

(** The messages a sequence of calls appends for [user_id], in the order of
    the calls: one per [save_message] call made for that user. *)
Definition appended_by (user_id : string) (cs : list call)
  : list context_msg :=
  flat_map
    (fun c =>
       match c with
       | Call_save_message u role message _ =>
           if String.eqb u user_id then [mk_context_msg role message] else []
       | _ => []
       end)
    cs.

End Database.

(** ** The voice loop ([app_og.py])

    The collaborators (microphone, Whisper, gTTS, playsound, langdetect, the
    chat model, the HTTP backend) are outside the program: what each of their
    calls does, returning a value or raising, is given by the environment.
    The functions below are the program's own code around those calls. *)

Module App.
Import Database.

(** A computation over the store.  [None] is a run that has consumed the
    whole script of the environment and is still listening. *)
Definition M (A : Type) : Type := db -> option (result A) * db.

Definition ret {A : Type} (a : A) : M A := fun d => (Some (Ok a), d).

Definition raise {A : Type} (e : exn) : M A := fun d => (Some (Raise e), d).

Definition listening {A : Type} : M A := fun d => (None, d).

Definition bind {A B : Type} (m : M A) (k : A -> M B) : M B :=
  fun d =>
    match m d with
    | (Some (Ok a), d') => k a d'
    | (Some (Raise e), d') => (Some (Raise e), d')
    | (None, d') => (None, d')
    end.

Notation "x <- m ;; k" := (bind m (fun x => k))
  (at level 61, m at next level, right associativity).
Notation "m ;;; k" := (bind m (fun _ => k))
  (at level 61, right associativity).

(** The outcome of a collaborator's call. *)
Definition ext {A : Type} (o : result A) : M A := fun d => (Some o, d).

(** A writing operation of the store. *)
Definition store (f : db -> db) : M unit := fun d => (Some (Ok tt), f d).

(** A reading operation of the store. *)
Definition query {A : Type} (f : db -> A) : M A :=
  fun d => (Some (Ok (f d)), d).

Definition query_result {A : Type} (f : db -> result A) : M A :=
  fun d => (Some (f d), d).

(** [try: m  except Exception: h]. *)
Definition try_except_Exception {A : Type} (m : M A) (h : exn -> M A) : M A :=
  fun d =>
    match m d with
    | (Some (Raise e), d') =>
        if is_Exception e then h e d' else (Some (Raise e), d')
    | r => r
    end.

(** [try: m  finally: f]. *)
Definition try_finally {A : Type} (m : M A) (f : M unit) : M A :=
  fun d =>
    match m d with
    | (Some r, d') =>
        match f d' with
        | (Some (Ok _), d'') => (Some r, d'')
        | (Some (Raise e), d'') => (Some (Raise e), d'')
        | (None, d'') => (None, d'')
        end
    | (None, d') => (None, d')
    end.

(** What the calls inside one [speak_text] do. *)
Record speak_env : Type := mk_speak_env {
  gTTS_lang : result unit;        (* gTTS(text, lang=lang) *)
  gTTS_en : result unit;          (* gTTS(text, lang='en') *)
  save_playsound : result unit;   (* tts.save(tmp); playsound(tmp) *)
  remove_tmp : result unit        (* os.path.exists(tmp), os.remove(tmp) *)
}.

Definition speak_text (text lang : string) (e : speak_env) : M unit :=
  tts <- try_except_Exception
           (ext (gTTS_lang e) ;;; ret true)
           (fun _ =>
              try_except_Exception
                (ext (gTTS_en e) ;;; ret true)
                (fun _ => ret false)) ;;
  if tts : bool then
    try_finally
      (try_except_Exception (ext (save_playsound e)) (fun _ => ret tt))
      (try_except_Exception (ext (remove_tmp e)) (fun _ => ret tt))
  else ret tt.

Definition transcribe_audio_file (whisper : result string) : M string :=
  try_except_Exception (ext whisper) (fun _ => ret "").

Definition detect_language_safe (detect : result string) (fallback : string)
  : M string :=
  try_except_Exception (ext detect) (fun _ => ret fallback).

Record classification : Type := mk_classification {
  intent : string;
  language : string;
  details : string
}.

(** [for attempt in range(max_retries)]: an attempt that raises an
    [Exception] is logged and the next one is made.  [chat n] is what the
    call to the chat model and the parsing of its answer do in attempt [n]. *)
Fixpoint classify_from (chat : nat -> result classification)
    (attempt remaining : nat) (detected_lang : string) : M classification :=
  match remaining with
  | O => ret (mk_classification "unknown" detected_lang "{}")
  | S n =>
      try_except_Exception
        (ext (chat attempt))
        (fun _ => classify_from chat (S attempt) n detected_lang)
  end.

Definition classify_intent_and_entities
    (chat : nat -> result classification) (detected_lang : string)
    (max_retries : nat) : M classification :=
  classify_from chat 0 max_retries detected_lang.

Definition translate_text_via_openai
    (chat : result string) (text target_lang source_lang : string)
  : M string :=
  if String.eqb target_lang "" || String.prefix source_lang target_lang
  then ret text
  else try_except_Exception (ext chat) (fun _ => ret text).

Definition fetch_user_data_from_backend
    (get : result (Z * string)) : M string :=
  try_except_Exception
    (resp <- ext get ;;
     if fst resp =? 200 then ret (snd resp) else ret "{}")
    (fun _ => ret "{}").

(** The reply of the intent endpoint: the status code and, for a JSON
    object, its ["message"] entry. *)
Definition send_intent_payload_to_backend
    (post : result (Z * option string)) : M (option string) :=
  try_except_Exception
    (resp <- ext post ;;
     if fst resp =? 200 then ret (snd resp)
     else ret (Some ("Backend error "
                     ++ NilZero.string_of_int (Z.to_int (fst resp)))))
    (fun _ =>
       ret (Some "Backend unavailable. Please ensure the backend server is running at BACKEND_URL.")).

(** What the calls of one iteration of the loop do. *)
Record turn_env : Type := mk_turn_env {
  listen : result unit;             (* sr.Microphone(), recognizer.listen *)
  write_wav : result unit;          (* open(AUDIO_TEMP_FILE,'wb'), f.write *)
  whisper : result string;          (* the transcription, stripped *)
  remove_wav : result unit;         (* os.path.exists, os.remove *)
  speak_repeat : speak_env;
  speak_goodbye : speak_env;
  detect : result string;
  now_user : string;
  chat_classify : nat -> result classification;
  users_get : result (Z * string);
  intent_post : result (Z * option string);
  print_response : result unit;     (* handle_flexible_response *)
  chat_translate : result string;
  now_assistant : string;
  speak_reply : speak_env
}.

(** What the calls of one run of [main] do. *)
Record main_env : Type := mk_main_env {
  now_create : string;
  now_start : string;
  speak_greeting : speak_env;
  new_Recognizer : result unit;     (* sr.Recognizer() *)
  turns : list turn_env;
  now_end : string
}.

Inductive control : Type := Continue | Break.

Definition exit_phrases : list string :=
  ["exit"; "quit"; "stop"; "bye"; "goodbye"; "band karo"; "nikal jao";
   "phir milenge"].

Definition mem (s : string) (l : list string) : bool :=
  existsb (String.eqb s) l.

(** [user_id.split('@')[0]]. *)
Fixpoint before_at (s : string) : string :=
  match s with
  | EmptyString => EmptyString
  | String c s' => if Ascii.eqb c "@" then EmptyString
                   else String c (before_at s')
  end.

Section Main.
(** Names imported from [config]. *)
Variable DEFAULT_LANGUAGE : string.
Variable MAX_CONTEXT_MESSAGES : Z.
Variable SUPPORTED_LANG_CODES_FOR_TTS : list string.
(** [str.strip().lower()]. *)
Variable strip_lower : string -> string.

Variable user_id : string.

(** The body of [while True:]. *)
Definition turn (preferred_lang : string) (t : turn_env) : M control :=
  ext (listen t) ;;;
  ext (write_wav t) ;;;
  user_text <- transcribe_audio_file (whisper t) ;;
  try_except_Exception (ext (remove_wav t)) (fun _ => ret tt) ;;;
  if String.eqb user_text "" then
    speak_text "I did not hear you. Please repeat." preferred_lang
               (speak_repeat t) ;;;
    ret Continue
  else if mem (strip_lower user_text) exit_phrases then
    speak_text (if String.prefix "en" preferred_lang
                then "Goodbye." else "अलविदा।")
               preferred_lang (speak_goodbye t) ;;;
    ret Break
  else
    detected_lang <- detect_language_safe (detect t) preferred_lang ;;
    let detected_lang :=
      if mem detected_lang SUPPORTED_LANG_CODES_FOR_TTS
      then detected_lang else preferred_lang in
    store (save_message user_id "user" user_text (now_user t)) ;;;
    context_msgs <-
      query_result (get_recent_context user_id MAX_CONTEXT_MESSAGES) ;;
    classification <-
      classify_intent_and_entities (chat_classify t) detected_lang 3 ;;
    user_data <- fetch_user_data_from_backend (users_get t) ;;
    backend_response <- send_intent_payload_to_backend (intent_post t) ;;
    ext (print_response t) ;;;
    let final_message :=
      match backend_response with
      | Some m => if String.eqb m ""
                  then "Sorry, I could not complete that request right now."
                  else m
      | None => "Sorry, I could not complete that request right now."
      end in
    final_message_translated <-
      (if negb (String.eqb detected_lang "")
          && negb (String.prefix "en" detected_lang)
       then try_except_Exception
              (translate_text_via_openai (chat_translate t) final_message
                                         detected_lang "en")
              (fun _ => ret final_message)
       else ret final_message) ;;
    store (save_message user_id "assistant" final_message_translated
                        (now_assistant t)) ;;;
    speak_text final_message_translated detected_lang (speak_reply t) ;;;
    ret Continue.

Fixpoint while_True (preferred_lang : string) (ts : list turn_env)
  : M unit :=
  match ts with
  | [] => listening
  | t :: ts' =>
      c <- turn preferred_lang t ;;
      match c with
      | Continue => while_True preferred_lang ts'
      | Break => ret tt
      end
  end.

(** [try: while True: ...  except KeyboardInterrupt: ...
     except Exception: ...  finally: end_session(user_id)]. *)
Definition guarded_loop (preferred_lang : string) (env : main_env)
  : M unit :=
  try_finally
    (fun d =>
       match while_True preferred_lang (turns env) d with
       | (Some (Raise KeyboardInterrupt), d') => (Some (Ok tt), d')
       | (Some (Raise (Exception _)), d') => (Some (Ok tt), d')
       | r => r
       end)
    (store (end_session user_id (now_end env))).

Definition main (env : main_env) : M unit :=
  if String.eqb user_id "" then ret tt
  else
    profile <- query (get_user_profile user_id) ;;
    profile <-
      match profile with
      | Some p => ret (Some p)
      | None =>
          store (create_user_profile user_id (before_at user_id)
                   DEFAULT_LANGUAGE "neutral" (now_create env)) ;;;
          query (get_user_profile user_id)
      end ;;
    match profile with
    | None => raise (Exception "AttributeError")
    | Some profile =>
        let preferred_lang := profile_language profile in
        store (start_session user_id (now_start env)) ;;;
        let greeting :=
          if String.prefix "hi" preferred_lang
          then "नमस्ते। कैसे मदद करूँ?"
          else "Hello " ++ profile_name profile ++ ". How can I help you?" in
        speak_text greeting preferred_lang (speak_greeting env) ;;;
        ext (new_Recognizer env) ;;;
        guarded_loop preferred_lang env
    end.
End Main.

End App.

(** ** String helpers of [app_og.py] and [config_example.py]

    A Python [str] is a sequence of code points and a [string] here is its
    UTF-8 encoding.  The characters searched for below are ASCII, and an
    ASCII byte occurs in UTF-8 text only as that character, so the functions
    cut the text at the same places as the Python methods. *)

Module Text.

(** [s.find(c)] for a one-character [c]: the index of the first occurrence,
    [-1] when there is none. *)
Fixpoint find (c : ascii) (s : string) : Z :=
  match s with
  | EmptyString => -1
  | String x s' =>
      if Ascii.eqb x c then 0
      else let i := find c s' in if i =? -1 then -1 else i + 1
  end.

(** [s.rfind(c)]: the index of the last occurrence, [-1] when there is
    none. *)
Fixpoint rfind (c : ascii) (s : string) : Z :=
  match s with
  | EmptyString => -1
  | String x s' =>
      let i := rfind c s' in
      if i =? -1 then (if Ascii.eqb x c then 0 else -1) else i + 1
  end.

(** [s[i:j]] for indices [0 <= i] and [0 <= j]. *)
Definition slice (s : string) (i j : Z) : string :=
  String.substring (Z.to_nat i) (Z.to_nat (j - i)) s.

(** The JSON substring [classify_intent_and_entities] hands to
    [json.loads]: from the first ['{'] to the last ['}'] of the answer when
    both occur, the whole answer otherwise. *)
Definition extract_json (raw : string) : string :=
  let first := find "{" raw in
  let last := rfind "}" raw in
  if negb (first =? -1) && negb (last =? -1)
  then slice raw first (last + 1)
  else raw.

(** [s.rstrip(c)] for a one-character [c]. *)
Fixpoint rstrip (c : ascii) (s : string) : string :=
  match s with
  | EmptyString => EmptyString
  | String x s' =>
      match rstrip c s' with
      | EmptyString =>
          if Ascii.eqb x c then EmptyString else String x EmptyString
      | r => String x r
      end
  end.

(** [f"{BACKEND_URL.rstrip('/')}/api/users/{user_id}"]. *)
Definition user_data_url (BACKEND_URL user_id : string) : string :=
  (rstrip "/" BACKEND_URL ++ "/api/users/" ++ user_id)%string.

(** [INTENT_ENDPOINT = f"{BACKEND_URL.rstrip('/')}/api/intent"]. *)
Definition INTENT_ENDPOINT (BACKEND_URL : string) : string :=
  (rstrip "/" BACKEND_URL ++ "/api/intent")%string.

(** [n] copies of a character. *)
Fixpoint replicate (n : nat) (c : ascii) : string :=
  match n with
  | O => EmptyString
  | S n' => String c (replicate n' c)
  end.

End Text.

(** ** What a computation does to the store *)

Module Frame.
Import Database.

(** Every run of [m] takes the store to one related to it by [R]. *)
Definition steps {A : Type} (R : db -> db -> Prop) (m : App.M A) : Prop :=
  forall d, R d (snd (m d)).

(** [m] does not write to the store. *)
Definition pure {A : Type} (m : App.M A) : Prop := steps eq m.

(** [m] ends, does not write to the store, and raises no [Exception]: it
    returns a value or lets a [BaseException] that is not an [Exception]
    through. *)
Definition absorbs {A : Type} (m : App.M A) : Prop :=
  forall d, exists out,
    m d = (Some out, d) /\ forall name, out <> Raise (Exception name).

(** The rows of each table that belong to [user_id]. *)
Definition users_of (user_id : string) (d : db) : list users_row :=
  filter (fun r => String.eqb (users_user_id r) user_id) (users d).

Definition conversation_of (user_id : string) (d : db)
  : list conversation_row :=
  filter (of_user user_id) (conversation d).

Definition sessions_of (user_id : string) (d : db) : list sessions_row :=
  filter (fun r => String.eqb (sessions_user_id r) user_id) (sessions d).

(** The two stores hold the same rows of [user_id]. *)
Definition same_rows_of (user_id : string) (d d' : db) : Prop :=
  users_of user_id d' = users_of user_id d /\
  conversation_of user_id d' = conversation_of user_id d /\
  sessions_of user_id d' = sessions_of user_id d.

(** What one iteration of the loop may leave in the store: nothing, the
    utterance, or the utterance and the reply. *)
Definition turn_effect (user_id : string) (t : App.turn_env) (d d' : db)
  : Prop :=
  d' = d \/
  exists text,
    App.whisper t = Ok text /\ text <> "" /\
    let d1 := save_message user_id "user" text (App.now_user t) d in
    d' = d1 \/
    exists reply,
      d' = save_message user_id "assistant" reply (App.now_assistant t) d1.

End Frame.

(** ** Sample data *)

Module Samples.
Import Database.

(** Two sessions opened for ["u1"] with no close in between. *)
Definition two_open : db :=
  start_session "u1" "2024-01-01T10:05:00"
    (start_session "u1" "2024-01-01T10:00:00" (init_db None)).

(** Scenario B of the contract: two messages of ["u1"]. *)
Definition scenario_B : db :=
  save_message "u1" "assistant" "your balance is 500" "2024-01-01T10:00:02"
    (save_message "u1" "user" "check balance" "2024-01-01T10:00:01"
       (init_db None)).

Definition quiet : App.speak_env :=
  App.mk_speak_env (Ok tt) (Ok tt) (Ok tt) (Ok tt).

(** Ctrl-C while [playsound] plays the greeting. *)
Definition interrupted_greeting : App.main_env :=
  App.mk_main_env "2024-01-01T10:00:00" "2024-01-01T10:00:01"
    (App.mk_speak_env (Ok tt) (Ok tt) (Raise KeyboardInterrupt) (Ok tt))
    (Ok tt) [] "2024-01-01T10:00:09".

(** A turn in which ["check balance"] is heard and the backend answers. *)
Definition balance_turn : App.turn_env :=
  App.mk_turn_env (Ok tt) (Ok tt) (Ok "check balance") (Ok tt) quiet quiet
    (Ok "en") "2024-01-01T10:00:03"
    (fun _ => Ok (App.mk_classification "check_balance" "en" "{}"))
    (Ok (200, "{}")) (Ok (200, Some "your balance is 500")) (Ok tt)
    (Ok "your balance is 500") "2024-01-01T10:00:05" quiet.

(** A turn in which [heard] is transcribed and nothing else answers. *)
Definition heard_turn (heard : string) : App.turn_env :=
  App.mk_turn_env (Ok tt) (Ok tt) (Ok heard) (Ok tt) quiet quiet
    (Raise (Exception "LangDetectException")) "2024-01-01T10:00:06"
    (fun _ => Raise (Exception "APIError"))
    (Raise (Exception "ConnectionError"))
    (Raise (Exception "ConnectionError")) (Ok tt)
    (Raise (Exception "APIError")) "2024-01-01T10:00:07" quiet.

(** A turn in which the microphone call raises [e]. *)
Definition faulty_turn (e : exn) : App.turn_env :=
  App.mk_turn_env (Raise e) (Ok tt) (Ok "") (Ok tt) quiet quiet
    (Ok "en") "2024-01-01T10:00:06"
    (fun _ => Raise (Exception "APIError")) (Ok (200, "{}")) (Ok (200, None))
    (Ok tt) (Ok "") "2024-01-01T10:00:07" quiet.

Definition run_of (ts : list App.turn_env) : App.main_env :=
  App.mk_main_env "2024-01-01T10:00:00" "2024-01-01T10:00:01" quiet (Ok tt)
    ts "2024-01-01T10:00:09".

(** A store with the profiles, some messages and a session of two users,
    their messages interleaved. *)
Definition two_users : db :=
  run_calls
    [Call_create_user_profile "u1" "Asha" "en" "neutral"
                              "2024-01-01T09:00:00";
     Call_create_user_profile "u2" "Ravi" "hi" "warm" "2024-01-01T09:01:00";
     Call_start_session "u2" "2024-01-01T09:02:00";
     Call_save_message "u1" "user" "check balance" "2024-01-01T09:03:00";
     Call_save_message "u2" "user" "loan status" "2024-01-01T09:03:30";
     Call_save_message "u1" "assistant" "your balance is 500"
                       "2024-01-01T09:04:00";
     Call_save_message "u2" "assistant" "your loan is approved"
                       "2024-01-01T09:04:30";
     Call_save_message "u1" "user" "thanks" "2024-01-01T09:05:00"]
    (init_db None).

(** Three appends for ["u1"] among appends for ["u2"] and other calls. *)
Definition interleaved : list call :=
  [Call_save_message "u1" "user" "transfer 200 to Ravi" "2024-01-02T10:00:00";
   Call_save_message "u2" "user" "emi due date" "2024-01-02T10:00:10";
   Call_update_user_preferences "u1" (Some "hi") None;
   Call_save_message "u1" "assistant" "transfer done" "2024-01-02T10:00:20";
   Call_get_recent_context "u2" 8;
   Call_save_message "u2" "assistant" "due on the 5th" "2024-01-02T10:00:30";
   Call_end_session "u2" "2024-01-02T10:00:40";
   Call_save_message "u1" "user" "bye" "2024-01-02T10:00:50"].

(** [main] for ["u1"] on a fresh file, with [DEFAULT_LANGUAGE = "en"] and
    a window of 8 messages. *)
Definition run (ts : list App.turn_env) : option (result unit) * db :=
  App.main "en" 8 ["en"; "hi"] (fun s => s) "u1" (run_of ts) (init_db None).

End Samples.

(** * Properties of the store *)

Import Database.
Local Open Scope list_scope.

(** ** Rowids and ordering *)

Section Rowids.

Lemma max_rowid_ge (ids : list Z) : Forall (fun i => i <= max_rowid ids) ids.
Proof.
  induction ids as [|i ids IH]; constructor; simpl.
  - lia.
  - eapply Forall_impl; [|exact IH]. simpl. intros; lia.
Qed.

Lemma next_rowid_fresh (seq : Z) (ids : list Z) :
  Forall (fun i => i < next_rowid seq ids) ids.
Proof.
  eapply Forall_impl; [|apply max_rowid_ge].
  unfold next_rowid. simpl. intros; lia.
Qed.

Lemma sorted_snoc (ids : list Z) (x : Z) :
  StronglySorted Z.lt ids -> Forall (fun i => i < x) ids ->
  StronglySorted Z.lt (ids ++ [x]).
Proof.
  induction 1 as [|i ids Hs IH Hi]; intros Hx; simpl.
  - repeat constructor.
  - inversion Hx; subst. constructor; auto.
    apply Forall_app; split; auto.
Qed.

Lemma sorted_next_rowid (seq : Z) (ids : list Z) :
  StronglySorted Z.lt ids ->
  StronglySorted Z.lt (ids ++ [next_rowid seq ids]).
Proof. intros; apply sorted_snoc; auto using next_rowid_fresh. Qed.

Context {A : Type} (key : A -> Z).

Lemma insert_desc_smallest (r : A) (l : list A) :
  Forall (fun x => key r < key x) l -> insert_desc key r l = l ++ [r].
Proof.
  induction 1 as [|x l Hx _ IH]; simpl; auto.
  destruct (Z.ltb_spec (key x) (key r)); [lia|]. now rewrite IH.
Qed.

(** On a list in rowid order, [ORDER BY id DESC] is the backward scan. *)
Lemma order_by_desc_sorted (l : list A) :
  StronglySorted Z.lt (map key l) -> order_by_desc key l = rev l.
Proof.
  induction l as [|r l IH]; simpl; auto.
  intros Hs. inversion Hs as [|? ? Hl Hr]; subst.
  rewrite IH by assumption.
  apply insert_desc_smallest.
  apply Forall_rev. now rewrite Forall_map in Hr.
Qed.

Lemma sorted_filter (f : A -> bool) (l : list A) :
  StronglySorted Z.lt (map key l) ->
  StronglySorted Z.lt (map key (filter f l)).
Proof.
  induction l as [|r l IH]; simpl; auto.
  intros Hs. inversion Hs as [|? ? Hl Hr]; subst.
  destruct (f r); simpl; auto.
  constructor; auto.
  rewrite Forall_map in *. rewrite Forall_forall in *.
  intros x Hx. apply Hr. apply filter_In in Hx. tauto.
Qed.

End Rowids.

Lemma lastn_rev {A : Type} (n : nat) (l : list A) :
  rev (firstn n (rev l)) = lastn n l.
Proof. unfold lastn. now rewrite firstn_rev, rev_involutive. Qed.

Lemma lastn_all {A : Type} (n : nat) (l : list A) :
  (List.length l <= n)%nat -> lastn n l = l.
Proof.
  intros H. unfold lastn.
  now replace (List.length l - n)%nat with 0%nat by lia.
Qed.

Lemma lastn_length {A : Type} (n : nat) (l : list A) :
  (List.length (lastn n l) <= n)%nat.
Proof. unfold lastn. rewrite length_skipn. lia. Qed.

(** ** The schema invariant is kept by every operation *)

Section Invariant.

Lemma wf_empty_db : wf empty_db.
Proof. unfold wf; simpl; repeat split; constructor. Qed.

Lemma wf_init_db (file : option db) :
  (forall d, file = Some d -> wf d) -> wf (init_db file).
Proof. destruct file; simpl; auto using wf_empty_db. Qed.

Lemma has_user_false (user_id : string) (d : db) :
  has_user user_id d = false -> ~ In user_id (map users_user_id (users d)).
Proof.
  unfold has_user. intros H Hin.
  apply in_map_iff in Hin as (r & Hr & Hin).
  assert (existsb (fun r => String.eqb (users_user_id r) user_id) (users d)
          = true) as Ht.
  { apply existsb_exists. exists r. split; auto.
    rewrite Hr. apply String.eqb_refl. }
  congruence.
Qed.

Lemma has_user_true (user_id : string) (d : db) :
  has_user user_id d = true -> In user_id (map users_user_id (users d)).
Proof.
  unfold has_user. intros H.
  apply existsb_exists in H as (r & Hin & Hr).
  apply String.eqb_eq in Hr. apply in_map_iff. eauto.
Qed.

Lemma wf_create_user_profile (user_id name language tone now : string)
    (d : db) :
  wf d -> wf (create_user_profile user_id name language tone now d).
Proof.
  intros (Hu & Hc & Hs & Hn). unfold create_user_profile.
  destruct (has_user user_id d) eqn:E; unfold wf; simpl; auto.
  rewrite !map_app; simpl. repeat split; auto.
  - now apply sorted_next_rowid.
  - apply has_user_false in E.
    apply NoDup_app; auto.
    + repeat constructor. intros [].
    + intros u Hin [<-|[]]. contradiction.
Qed.

Lemma users_keys_update (f : string -> users_row -> users_row)
    (user_id v : string) (rows : list users_row) :
  (forall r, users_id (f v r) = users_id r /\
             users_user_id (f v r) = users_user_id r) ->
  let g := fun r => if String.eqb (users_user_id r) user_id
                    then f v r else r in
  map users_id (map g rows) = map users_id rows /\
  map users_user_id (map g rows) = map users_user_id rows.
Proof.
  intros Hf g. rewrite !map_map. split; apply map_ext; intros r; unfold g;
    destruct (String.eqb _ _); auto; apply Hf.
Qed.

Lemma wf_update_language (user_id language : string) (d : db) :
  wf d -> wf (update_language user_id language d).
Proof.
  intros (Hu & Hc & Hs & Hn). unfold wf, update_language; simpl.
  destruct (users_keys_update set_preferred_language user_id language
              (users d)) as [-> ->]; auto.
Qed.

Lemma wf_update_tone (user_id tone : string) (d : db) :
  wf d -> wf (update_tone user_id tone d).
Proof.
  intros (Hu & Hc & Hs & Hn). unfold wf, update_tone; simpl.
  destruct (users_keys_update set_voice_tone user_id tone (users d))
    as [-> ->]; auto.
Qed.

Lemma wf_update_user_preferences (user_id : string)
    (language tone : option string) (d : db) :
  wf d -> wf (update_user_preferences user_id language tone d).
Proof.
  intros H. unfold update_user_preferences.
  destruct language as [l|], tone as [t|]; simpl;
    repeat match goal with |- context [negb ?b] => destruct b; simpl end;
    auto using wf_update_language, wf_update_tone.
Qed.

Lemma wf_start_session (user_id now : string) (d : db) :
  wf d -> wf (start_session user_id now d).
Proof.
  intros (Hu & Hc & Hs & Hn). unfold wf, start_session; simpl.
  rewrite map_app; simpl. auto using sorted_next_rowid.
Qed.

Lemma wf_end_session (user_id now : string) (d : db) :
  wf d -> wf (end_session user_id now d).
Proof.
  intros (Hu & Hc & Hs & Hn). unfold wf, end_session; simpl.
  repeat split; auto.
  rewrite map_map.
  erewrite map_ext; [exact Hs|].
  intros r; simpl. now destruct (is_open_for user_id r).
Qed.

Lemma wf_save_message (user_id role message now : string) (d : db) :
  wf d -> wf (save_message user_id role message now d).
Proof.
  intros (Hu & Hc & Hs & Hn). unfold wf, save_message; simpl.
  rewrite map_app; simpl. auto using sorted_next_rowid.
Qed.

End Invariant.

(** ** The context window *)

Section ContextWindow.

Lemma bind_int_in_range (n : Z) :
  SQLITE_INT_MIN <= n <= SQLITE_INT_MAX -> bind_int n = Ok n.
Proof.
  intros [H1 H2]. unfold bind_int.
  apply Z.leb_le in H1, H2. now rewrite H1, H2.
Qed.

Lemma bind_int_out_of_range (n : Z) :
  n < SQLITE_INT_MIN \/ SQLITE_INT_MAX < n ->
  bind_int n = Raise (Exception "OverflowError").
Proof.
  intros H. unfold bind_int.
  destruct (Z.leb_spec SQLITE_INT_MIN n), (Z.leb_spec n SQLITE_INT_MAX);
    simpl; auto; lia.
Qed.

(** On a stored database, the query and the reversal yield the user's
    messages oldest first: all of them for a negative limit, the last
    [limit] of them otherwise. *)
Lemma get_recent_context_window (user_id : string) (limit : Z) (d : db) :
  wf d -> SQLITE_INT_MIN <= limit <= SQLITE_INT_MAX ->
  get_recent_context user_id limit d =
  Ok (if limit <? 0 then messages_of user_id d
      else lastn (Z.to_nat limit) (messages_of user_id d)).
Proof.
  intros (_ & Hc & _) Hr. unfold get_recent_context.
  rewrite bind_int_in_range by assumption. f_equal.
  unfold select_recent, sql_limit, messages_of.
  rewrite order_by_desc_sorted by now apply sorted_filter.
  destruct (limit <? 0).
  - now rewrite rev_involutive.
  - now rewrite <- lastn_rev, map_rev, <- firstn_map, map_rev.
Qed.

End ContextWindow.

(** ** Sessions *)

Section Sessions.

Lemma end_session_no_open (user_id now : string) (d : db) :
  open_sessions user_id (end_session user_id now d) = [].
Proof.
  unfold open_sessions, end_session; simpl.
  induction (sessions d) as [|r rows IH]; simpl; auto.
  destruct (is_open_for user_id r) eqn:E.
  - unfold is_open_for at 1; simpl. now rewrite andb_false_r.
  - now rewrite E.
Qed.

Lemma is_open_for_true (user_id : string) (r : sessions_row) :
  is_open_for user_id r = true <->
  sessions_user_id r = user_id /\ sessions_session_end r = None.
Proof.
  unfold is_open_for. rewrite andb_true_iff, String.eqb_eq.
  destruct (sessions_session_end r); intuition congruence.
Qed.

End Sessions.

(** C1, as stated: with two open sessions of a user, [close_session] would
    leave the older one open.  It does not: [end_session] on the store with
    two open sessions of ["u1"] fills [session_end] of both rows. *)
Lemma end_session_closes_older_session :
  map sessions_session_end (sessions Samples.two_open) = [None; None] /\
  map sessions_session_end
      (sessions (end_session "u1" "2024-01-01T10:09:00" Samples.two_open))
  = [Some "2024-01-01T10:09:00"; Some "2024-01-01T10:09:00"] /\
  ~ (exists older,
       nth_error (sessions (end_session "u1" "2024-01-01T10:09:00"
                                        Samples.two_open)) 0 = Some older /\
       sessions_session_end older = None).
Proof.
  repeat split; try reflexivity.
  intros (older & H & Hend). vm_compute in H.
  injection H as <-. discriminate Hend.
Qed.

(** C1, amended: [close_session(user_id)] sets [session_end] to the current
    time on every session row of [user_id] whose [session_end] is null, and
    leaves every other session row, and the other two tables, unchanged;
    afterwards the user has no open session. *)
Theorem end_session_closes_every_open_session
    (user_id now : string) (d : db) :
  let d' := end_session user_id now d in
  users d' = users d /\
  conversation d' = conversation d /\
  Forall2
    (fun r r' =>
       sessions_id r' = sessions_id r /\
       sessions_user_id r' = sessions_user_id r /\
       sessions_session_start r' = sessions_session_start r /\
       (sessions_user_id r = user_id -> sessions_session_end r = None ->
        sessions_session_end r' = Some now) /\
       (sessions_user_id r <> user_id \/ sessions_session_end r <> None ->
        r' = r))
    (sessions d) (sessions d') /\
  open_sessions user_id d' = [].
Proof.
  simpl. repeat split; [|apply end_session_no_open].
  induction (sessions d) as [|r rows IH]; simpl; constructor; auto.
  destruct (is_open_for user_id r) eqn:E; simpl; repeat split; auto.
  - apply is_open_for_true in E. intros [H|H]; tauto.
  - intros Hu He.
    assert (is_open_for user_id r = true) by now apply is_open_for_true.
    congruence.
Qed.

(** C2, as stated: [recent] would return the empty sequence for every
    [limit <= 0], and at most [limit] messages for every positive integer
    [limit].  With the two messages of scenario B stored, the limit [-1]
    returns both of them (a negative LIMIT is no limit), and the limit
    [2^63] returns nothing at all: the binding raises [OverflowError]. *)
Lemma get_recent_context_negative_limit :
  get_recent_context "u1" (-1) Samples.scenario_B =
  Ok [mk_context_msg "user" "check balance";
      mk_context_msg "assistant" "your balance is 500"] /\
  get_recent_context "u1" (-1) Samples.scenario_B <> Ok [] /\
  get_recent_context "u1" (2 ^ 63) Samples.scenario_B =
  Raise (Exception "OverflowError").
Proof. repeat split; try reflexivity. discriminate. Qed.

(** C2, amended: for every user and every integer [limit] that fits a signed
    64-bit integer, [recent(user_id, limit)] returns a list; for [limit > 0]
    it has at most [limit] messages, and is the list of all messages of the
    user when there are no more than [limit] of them; for [limit = 0] it is
    empty; for [limit < 0] it is the list of all messages of the user. *)
Theorem get_recent_context_bounded (user_id : string) (limit : Z) (d : db) :
  wf d -> SQLITE_INT_MIN <= limit <= SQLITE_INT_MAX ->
  exists rows,
    get_recent_context user_id limit d = Ok rows /\
    (0 < limit ->
     Z.of_nat (List.length rows) <= limit /\
     (Z.of_nat (List.length (messages_of user_id d)) <= limit ->
      rows = messages_of user_id d)) /\
    (limit = 0 -> rows = []) /\
    (limit < 0 -> rows = messages_of user_id d).
Proof.
  intros Hwf Hr. eexists. split.
  - now apply get_recent_context_window.
  - destruct (Z.ltb_spec limit 0); repeat split; intros; try lia; auto.
    + pose proof (lastn_length (Z.to_nat limit) (messages_of user_id d)). lia.
    + apply lastn_all. lia.
    + subst limit. unfold lastn. simpl. rewrite Nat.sub_0_r. apply skipn_all.
Qed.

Lemma wf_scenario_B : wf Samples.scenario_B.
Proof. unfold wf; simpl. repeat split; repeat constructor. Defined.

Lemma get_recent_context_bounded_witness :
  exists rows,
    get_recent_context "u1" 1 Samples.scenario_B = Ok rows /\
    (0 < 1 ->
     Z.of_nat (List.length rows) <= 1 /\
     (Z.of_nat (List.length (messages_of "u1" Samples.scenario_B)) <= 1 ->
      rows = messages_of "u1" Samples.scenario_B)) /\
    (1 = 0 -> rows = []) /\
    (1 < 0 -> rows = messages_of "u1" Samples.scenario_B).
Proof.
  apply (get_recent_context_bounded "u1" 1 Samples.scenario_B).
  - exact wf_scenario_B.
  - unfold SQLITE_INT_MIN, SQLITE_INT_MAX. lia.
Defined.

(** ** Isolation of the users *)

Section Isolation.

Lemma filter_snoc_other (u1 u2 role message now : string) (id : Z)
    (rows : list conversation_row) :
  u1 <> u2 ->
  filter (of_user u2)
         (rows ++ [mk_conversation_row id u1 role message now])
  = filter (of_user u2) rows.
Proof.
  intros H. rewrite filter_app; simpl. unfold of_user at 2; simpl.
  apply String.eqb_neq in H. rewrite H. apply app_nil_r.
Qed.

Lemma sql_limit_incl {A : Type} (n : Z) (rows : list A) :
  incl (sql_limit n rows) rows.
Proof.
  unfold sql_limit. destruct (n <? 0).
  - apply incl_refl.
  - intros x Hx. rewrite <- (firstn_skipn (Z.to_nat n) rows).
    apply in_or_app. now left.
Qed.

Lemma insert_desc_In {A : Type} (key : A -> Z) (r x : A) (l : list A) :
  In x (insert_desc key r l) -> x = r \/ In x l.
Proof.
  induction l as [|y l IH]; simpl.
  - intuition.
  - destruct (key y <? key r); simpl; intuition.
Qed.

Lemma order_by_desc_incl {A : Type} (key : A -> Z) (l : list A) :
  incl (order_by_desc key l) l.
Proof.
  induction l as [|r l IH]; simpl; intros x Hx; auto.
  apply insert_desc_In in Hx as [->|Hx]; simpl; auto.
Qed.

End Isolation.

(** C10: for distinct users [u1] and [u2], an [append] for [u1] changes
    neither [recent(u2, limit)], whatever the limit, nor [get_profile(u2)];
    and each read returns only rows of its user: every message [recent]
    returns comes from a stored conversation row of that user, a profile
    [get_profile] returns is the one of a stored profile row of that user,
    and it returns [None] only when the user has no profile row. *)
Theorem reads_isolated
    (u1 u2 role message now : string) (limit : Z) (d : db) :
  u1 <> u2 ->
  get_recent_context u2 limit (save_message u1 role message now d)
  = get_recent_context u2 limit d /\
  get_user_profile u2 (save_message u1 role message now d)
  = get_user_profile u2 d /\
  (forall msgs,
     get_recent_context u2 limit d = Ok msgs ->
     Forall (fun m => exists r, In r (conversation d) /\
                                conversation_user_id r = u2 /\
                                to_context_msg r = m) msgs) /\
  (forall p,
     get_user_profile u2 d = Some p ->
     exists r, In r (users d) /\ users_user_id r = u2 /\
               p = mk_profile (users_name r) (users_preferred_language r)
                              (users_voice_tone r)) /\
  (get_user_profile u2 d = None ->
   forall r, In r (users d) -> users_user_id r <> u2).
Proof.
  intros Hne. repeat split.
  - unfold get_recent_context, select_recent, save_message; simpl.
    now rewrite filter_snoc_other.
  - intros msgs. unfold get_recent_context.
    destruct (bind_int limit) as [l|e]; [|discriminate].
    intros [= <-]. apply Forall_forall. intros m Hm.
    apply in_map_iff in Hm as (r & <- & Hr).
    apply in_rev, sql_limit_incl, order_by_desc_incl, filter_In in Hr
      as [Hin Hu].
    apply String.eqb_eq in Hu. eauto.
  - intros p. unfold get_user_profile.
    destruct (find _ (users d)) as [r|] eqn:F; [|discriminate].
    intros [= <-]. apply find_some in F as [Hin Hu].
    apply String.eqb_eq in Hu. eauto.
  - unfold get_user_profile.
    destruct (find _ (users d)) as [r0|] eqn:F; [discriminate|].
    intros _ r Hin Hu. eapply find_none in F; eauto.
    rewrite Hu, String.eqb_refl in F. discriminate.
Qed.

Lemma reads_isolated_witness :
  get_recent_context "u2" 8
    (save_message "u1" "user" "transfer 200" "2024-01-02T10:00:00"
                  Samples.two_users)
  = get_recent_context "u2" 8 Samples.two_users /\
  get_user_profile "u2"
    (save_message "u1" "user" "transfer 200" "2024-01-02T10:00:00"
                  Samples.two_users)
  = get_user_profile "u2" Samples.two_users /\
  (forall msgs,
     get_recent_context "u2" 8 Samples.two_users = Ok msgs ->
     Forall (fun m => exists r, In r (conversation Samples.two_users) /\
                                conversation_user_id r = "u2" /\
                                to_context_msg r = m) msgs) /\
  (forall p,
     get_user_profile "u2" Samples.two_users = Some p ->
     exists r, In r (users Samples.two_users) /\ users_user_id r = "u2" /\
               p = mk_profile (users_name r) (users_preferred_language r)
                              (users_voice_tone r)) /\
  (get_user_profile "u2" Samples.two_users = None ->
   forall r, In r (users Samples.two_users) -> users_user_id r <> "u2").
Proof.
  apply (reads_isolated "u1" "u2" "user" "transfer 200"
                        "2024-01-02T10:00:00" 8 Samples.two_users).
  discriminate.
Defined.

(** ** Profiles *)

Section Profiles.

Lemma count_unique (user_id : string) (rows : list users_row) :
  NoDup (map users_user_id rows) ->
  In user_id (map users_user_id rows) ->
  List.length
    (filter (fun r => String.eqb (users_user_id r) user_id) rows) = 1%nat.
Proof.
  induction rows as [|r rows IH]; simpl; [tauto|].
  intros Hn Hin. inversion Hn as [|? ? Hr Hn']; subst.
  destruct (String.eqb_spec (users_user_id r) user_id) as [E|E]; simpl.
  - f_equal. rewrite E in Hr.
    destruct (filter _ rows) as [|x xs] eqn:F; auto.
    exfalso. apply Hr.
    assert (In x (filter (fun r => String.eqb (users_user_id r) user_id)
                         rows)) as Hx by (rewrite F; now left).
    apply filter_In in Hx as [Hx Hu]. apply String.eqb_eq in Hu.
    apply in_map_iff. eauto.
  - destruct Hin as [Hin|Hin]; [contradiction|]. auto.
Qed.

Lemma has_user_create_user_profile (user_id name language tone now : string)
    (d : db) :
  has_user user_id (create_user_profile user_id name language tone now d)
  = true.
Proof.
  unfold create_user_profile.
  destruct (has_user user_id d) eqn:E; unfold has_user in *; simpl; auto.
  rewrite existsb_app; simpl. rewrite String.eqb_refl.
  now rewrite orb_true_r.
Qed.

Lemma map_id_on {A : Type} (f : A -> A) (l : list A) :
  (forall x, In x l -> f x = x) -> map f l = l.
Proof.
  induction l as [|x l IH]; simpl; intros H; auto.
  rewrite H, IH; auto.
Qed.

Lemma update_language_absent (user_id language : string) (d : db) :
  ~ In user_id (map users_user_id (users d)) ->
  update_language user_id language d = d.
Proof.
  intros H. unfold update_language, set_users. destruct d; simpl in *.
  f_equal. apply map_id_on. intros r Hr.
  destruct (String.eqb_spec (users_user_id r) user_id) as [E|E]; auto.
  exfalso. apply H. apply in_map_iff. eauto.
Qed.

Lemma update_tone_absent (user_id tone : string) (d : db) :
  ~ In user_id (map users_user_id (users d)) ->
  update_tone user_id tone d = d.
Proof.
  intros H. unfold update_tone, set_users. destruct d; simpl in *.
  f_equal. apply map_id_on. intros r Hr.
  destruct (String.eqb_spec (users_user_id r) user_id) as [E|E]; auto.
  exfalso. apply H. apply in_map_iff. eauto.
Qed.

Lemma find_absent (user_id : string) (rows : list users_row) :
  ~ In user_id (map users_user_id rows) ->
  find (fun r => String.eqb (users_user_id r) user_id) rows = None.
Proof.
  intros H. destruct (find _ rows) as [r|] eqn:F; auto.
  apply find_some in F as [Hin Hu]. apply String.eqb_eq in Hu.
  exfalso. apply H. apply in_map_iff. eauto.
Qed.

End Profiles.

(** C4: profile creation is idempotent.  On a stored database, after two
    calls for the same [user_id], whatever the arguments of the second, the
    user has exactly one profile row; the second call changes no row of any
    table, so [created_at], [name], [preferred_language] and [voice_tone] are
    those the first call left, which for a new user are those it was given.
    The calls are total: neither raises. *)
Theorem create_user_profile_idempotent
    (user_id name language tone now name' language' tone' now' : string)
    (d : db) :
  wf d ->
  let d1 := create_user_profile user_id name language tone now d in
  let d2 := create_user_profile user_id name' language' tone' now' d1 in
  users d2 = users d1 /\
  conversation d2 = conversation d1 /\
  sessions d2 = sessions d1 /\
  count_users user_id d2 = 1%nat /\
  get_user_profile user_id d2 = get_user_profile user_id d1 /\
  (has_user user_id d = false ->
   exists id,
     filter (fun r => String.eqb (users_user_id r) user_id) (users d2)
     = [mk_users_row id user_id name language tone now]).
Proof.
  intros Hwf d1 d2.
  pose proof (has_user_create_user_profile user_id name language tone now d)
    as Hh.
  fold d1 in Hh.
  assert (users d2 = users d1) as Hu.
  { unfold d2, create_user_profile. now rewrite Hh. }
  assert (wf d1) as (_ & _ & _ & Hn) by now apply wf_create_user_profile.
  assert (count_users user_id d1 = 1%nat) as Hc.
  { apply count_unique; auto. now apply has_user_true. }
  repeat split; auto.
  - unfold d2, create_user_profile. now rewrite Hh.
  - unfold d2, create_user_profile. now rewrite Hh.
  - unfold count_users. now rewrite Hu.
  - unfold get_user_profile. now rewrite Hu.
  - intros Hnew. rewrite Hu. unfold count_users in Hc. revert Hc.
    unfold d1, create_user_profile. rewrite Hnew. simpl.
    rewrite filter_app. simpl. rewrite String.eqb_refl.
    rewrite length_app. simpl. intros Hc.
    destruct (filter _ (users d)); simpl in *; [eauto|lia].
Qed.

Lemma create_user_profile_idempotent_witness :
  let d1 := create_user_profile "u1" "U1" "en" "neutral"
                                "2024-01-01T10:00:00" Samples.scenario_B in
  let d2 := create_user_profile "u1" "Other" "hi" "warm"
                                "2024-01-02T09:00:00" d1 in
  users d2 = users d1 /\
  conversation d2 = conversation d1 /\
  sessions d2 = sessions d1 /\
  count_users "u1" d2 = 1%nat /\
  get_user_profile "u1" d2 = get_user_profile "u1" d1 /\
  (has_user "u1" Samples.scenario_B = false ->
   exists id,
     filter (fun r => String.eqb (users_user_id r) "u1") (users d2)
     = [mk_users_row id "u1" "U1" "en" "neutral" "2024-01-01T10:00:00"]).
Proof.
  apply (create_user_profile_idempotent "u1" "U1" "en" "neutral"
           "2024-01-01T10:00:00" "Other" "hi" "warm" "2024-01-02T09:00:00"
           Samples.scenario_B).
  exact wf_scenario_B.
Defined.

(** C6: for a user with no profile row and no session row,
    [update_preferences] and [close_session] return the store as it was, and
    [get_profile] returns [None]; none of them raises. *)
Theorem absent_user_noop
    (user_id : string) (language tone : option string) (now : string)
    (d : db) :
  ~ In user_id (map users_user_id (users d)) ->
  ~ In user_id (map sessions_user_id (sessions d)) ->
  update_user_preferences user_id language tone d = d /\
  end_session user_id now d = d /\
  get_user_profile user_id d = None.
Proof.
  intros Hu Hs. repeat split.
  - unfold update_user_preferences.
    destruct language as [l|], tone as [t|]; simpl;
      repeat match goal with |- context [negb ?b] => destruct b; simpl end;
      rewrite ?update_language_absent, ?update_tone_absent; auto.
  - unfold end_session, set_sessions. destruct d; simpl in *.
    f_equal. apply map_id_on. intros r Hr.
    destruct (is_open_for user_id r) eqn:E; auto.
    apply is_open_for_true in E as [E _].
    exfalso. apply Hs. apply in_map_iff. eauto.
  - unfold get_user_profile. now rewrite find_absent.
Qed.

Lemma absent_user_noop_witness :
  update_user_preferences "u9" (Some "hi") (Some "warm") Samples.two_open
  = Samples.two_open /\
  end_session "u9" "2024-01-01T11:00:00" Samples.two_open
  = Samples.two_open /\
  get_user_profile "u9" Samples.two_open = None.
Proof.
  apply (absent_user_noop "u9" (Some "hi") (Some "warm")
                          "2024-01-01T11:00:00" Samples.two_open).
  - simpl. tauto.
  - simpl. intros [H|[H|[]]]; discriminate H.
Defined.

(** ** Preference updates *)

Section Preferences.

Lemma Forall2_map_self {A : Type} (P : A -> A -> Prop) (f : A -> A)
    (l : list A) :
  (forall x, P x (f x)) -> Forall2 P l (map f l).
Proof. intros H. induction l; simpl; constructor; auto. Qed.

Lemma Forall2_same {A : Type} (P : A -> A -> Prop) (l : list A) :
  (forall x, P x x) -> Forall2 P l l.
Proof. intros H. induction l; constructor; auto. Qed.

Lemma update_user_preferences_tables (user_id : string)
    (language tone : option string) (d : db) :
  let d' := update_user_preferences user_id language tone d in
  conversation d' = conversation d /\
  conversation_seq d' = conversation_seq d /\
  sessions d' = sessions d /\
  sessions_seq d' = sessions_seq d /\
  users_seq d' = users_seq d.
Proof.
  unfold update_user_preferences.
  destruct language as [l|], tone as [t|]; simpl;
    repeat match goal with |- context [negb ?b] => destruct b; simpl end;
    auto.
Qed.

End Preferences.

(** C7: [update_preferences] is a partial update that respects its frame.
    Whatever is supplied, the conversation and session tables are unchanged
    and every profile row keeps its [id], [user_id], [name] and
    [created_at]; rows of other users are unchanged; when no tone is
    supplied no [voice_tone] changes, when no language is supplied no
    [preferred_language] changes; a supplied non-empty value is stored in
    the rows of [user_id]. *)
Theorem update_user_preferences_frame
    (user_id : string) (language tone : option string) (d : db) :
  let d' := update_user_preferences user_id language tone d in
  conversation d' = conversation d /\
  sessions d' = sessions d /\
  Forall2
    (fun r r' =>
       users_id r' = users_id r /\
       users_user_id r' = users_user_id r /\
       users_name r' = users_name r /\
       users_created_at r' = users_created_at r /\
       (users_user_id r <> user_id -> r' = r) /\
       (tone = None -> users_voice_tone r' = users_voice_tone r) /\
       (language = None ->
        users_preferred_language r' = users_preferred_language r) /\
       (forall l, users_user_id r = user_id -> language = Some l ->
                  l <> "" -> users_preferred_language r' = l) /\
       (forall t, users_user_id r = user_id -> tone = Some t ->
                  t <> "" -> users_voice_tone r' = t))
    (users d) (users d').
Proof.
  destruct (update_user_preferences_tables user_id language tone d)
    as (Hc & _ & Hs & _).
  simpl. repeat split; auto.
  unfold update_user_preferences.
  destruct language as [l|], tone as [t|]; simpl;
    try destruct (String.eqb_spec l ""); try destruct (String.eqb_spec t "");
    simpl; rewrite ?map_map;
    first [apply Forall2_map_self | apply Forall2_same];
    intros r; destruct (String.eqb (users_user_id r) user_id) eqn:E;
    simpl; rewrite ?E; simpl;
    (apply String.eqb_eq in E || apply String.eqb_neq in E);
    repeat split; intros; subst; try congruence.
Qed.

(** C9: an empty string for [language] or for [tone] is treated as the field
    not being supplied; with both empty the store is returned as it was, so
    the stored [preferred_language] and [voice_tone] are unchanged. *)
Theorem update_user_preferences_empty_string
    (user_id : string) (language tone : option string) (d : db) :
  update_user_preferences user_id (Some "") tone d
  = update_user_preferences user_id None tone d /\
  update_user_preferences user_id language (Some "") d
  = update_user_preferences user_id language None d /\
  update_user_preferences user_id (Some "") (Some "") d = d.
Proof. repeat split. Qed.

(** ** The conversation log *)

Section AppendOnly.

Lemma conversation_run_call (c : call) (d : db) :
  exists appended,
    conversation (run_call c d) = conversation d ++ appended.
Proof.
  destruct c; simpl;
    try (exists []; rewrite app_nil_r; reflexivity).
  - exists []. rewrite app_nil_r. unfold create_user_profile.
    now destruct (has_user user_id d).
  - exists []. rewrite app_nil_r.
    apply update_user_preferences_tables.
  - eexists. reflexivity.
Qed.

End AppendOnly.

(** C8: the conversation log is append-only.  After any sequence of calls
    of the store's functions, the conversation table is the table before,
    row for row ([id], [user_id], [role], [message] and [timestamp]),
    followed by the rows appended since. *)
Theorem conversation_append_only (cs : list call) (d : db) :
  exists appended,
    conversation (run_calls cs d) = conversation d ++ appended.
Proof.
  unfold run_calls. revert d. induction cs as [|c cs IH]; intros d; simpl.
  - exists []. now rewrite app_nil_r.
  - destruct (IH (run_call c d)) as (rows & Hrows).
    destruct (conversation_run_call c d) as (row & Hrow).
    exists (row ++ rows). now rewrite Hrows, Hrow, app_assoc.
Qed.

(** ** The voice loop *)

Section VoiceLoop.

Variable DEFAULT_LANGUAGE : string.
Variable MAX_CONTEXT_MESSAGES : Z.
Variable SUPPORTED_LANG_CODES_FOR_TTS : list string.
Variable strip_lower : string -> string.

(** [speak_text] does not touch the store. *)
Lemma speak_text_db (text lang : string) (e : App.speak_env) (d : db) :
  snd (App.speak_text text lang e d) = d.
Proof.
  unfold App.speak_text, App.bind, App.try_except_Exception,
    App.try_finally, App.ext, App.ret.
  destruct e as [[[]|[| |n1]] [[]|[| |n2]] [[]|[| |n3]] [[]|[| |n4]]];
    reflexivity.
Qed.

(** Once the [try] block is entered, a run that ends has closed every
    open session of the user: the [finally] clause ran. *)
Lemma guarded_loop_closes_session
    (user_id preferred_lang : string) (env : App.main_env) (d d' : db)
    (out : result unit) :
  App.guarded_loop MAX_CONTEXT_MESSAGES SUPPORTED_LANG_CODES_FOR_TTS
    strip_lower user_id preferred_lang env d = (Some out, d') ->
  open_sessions user_id d' = [].
Proof.
  unfold App.guarded_loop, App.try_finally, App.store.
  destruct (App.while_True _ _ _ _ _ _ d) as [[[[]|[| |n]]|] d1];
    intros [= _ <-]; apply end_session_no_open.
Qed.

(** A run of [main] whose greeting is spoken and whose recogniser is
    built leaves no session of the user open when it ends. *)
Lemma main_closes_session_after_greeting
    (user_id : string) (env : App.main_env) (d d' : db)
    (out : result unit) :
  user_id <> "" ->
  (forall text lang d0,
     fst (App.speak_text text lang (App.speak_greeting env) d0)
     = Some (Ok tt)) ->
  App.new_Recognizer env = Ok tt ->
  App.main DEFAULT_LANGUAGE MAX_CONTEXT_MESSAGES
    SUPPORTED_LANG_CODES_FOR_TTS strip_lower user_id env d
  = (Some out, d') ->
  open_sessions user_id d' = [].
Proof.
  intros Hid Hg Hr. unfold App.main.
  apply String.eqb_neq in Hid. rewrite Hid.
  unfold App.bind at 1. unfold App.query at 1.
  destruct (get_user_profile user_id d) as [p|].
  - unfold App.bind at 1. unfold App.ret at 1.
    unfold App.bind at 1. unfold App.store at 1.
    unfold App.bind at 1.
    match goal with
    | |- context [App.speak_text ?t ?l ?e ?d0] =>
        pose proof (Hg t l d0) as H1;
        pose proof (speak_text_db t l e d0) as H2;
        destruct (App.speak_text t l e d0) as [o d1]
    end.
    simpl in H1, H2. subst o d1.
    unfold App.bind at 1. unfold App.ext at 1. rewrite Hr.
    apply guarded_loop_closes_session.
  - unfold App.bind at 1. unfold App.bind at 1. unfold App.store at 1.
    unfold App.query at 1.
    destruct (get_user_profile user_id _) as [p|] eqn:G.
    + unfold App.bind at 1. unfold App.store at 1.
      unfold App.bind at 1.
      match goal with
      | |- context [App.speak_text ?t ?l ?e ?d0] =>
          pose proof (Hg t l d0) as H1;
          pose proof (speak_text_db t l e d0) as H2;
          destruct (App.speak_text t l e d0) as [o d1]
      end.
      simpl in H1, H2. subst o d1.
      unfold App.bind at 1. unfold App.ext at 1. rewrite Hr.
      apply guarded_loop_closes_session.
    + exfalso. unfold get_user_profile in G.
      destruct (find _ (users _)) eqn:F; [discriminate|].
      pose proof (has_user_create_user_profile user_id
                    (App.before_at user_id) DEFAULT_LANGUAGE "neutral"
                    (App.now_create env) d) as Hh.
      unfold has_user in Hh. apply existsb_exists in Hh as (r & Hin & Hu).
      eapply find_none in F; eauto. congruence.
Qed.

End VoiceLoop.

Section ExitPaths.

Import Samples.

(** Normal termination: a turn, then the exit phrase. *)
Example main_exit_phrase :
  fst (run [Samples.balance_turn; Samples.heard_turn "exit"]) = Some (Ok tt) /\
  map sessions_session_end
      (sessions (snd (run [Samples.balance_turn; Samples.heard_turn "exit"])))
  = [Some "2024-01-01T10:00:09"] /\
  messages_of "u1"
    (snd (run [Samples.balance_turn; Samples.heard_turn "exit"]))
  = [mk_context_msg "user" "check balance";
     mk_context_msg "assistant" "your balance is 500"].
Proof. repeat split. Qed.

(** User interruption inside the loop. *)
Example main_interrupted_in_loop :
  fst (run [Samples.balance_turn; Samples.faulty_turn KeyboardInterrupt])
  = Some (Ok tt) /\
  map sessions_session_end
      (sessions (snd (run [Samples.balance_turn;
                           Samples.faulty_turn KeyboardInterrupt])))
  = [Some "2024-01-01T10:00:09"].
Proof. repeat split. Qed.

(** An unexpected error inside the loop, and an exception no handler of the
    loop catches. *)
Example main_error_in_loop :
  fst (run [Samples.faulty_turn (Exception "OSError")]) = Some (Ok tt) /\
  map sessions_session_end
      (sessions (snd (run [Samples.faulty_turn (Exception "OSError")])))
  = [Some "2024-01-01T10:00:09"] /\
  fst (run [Samples.faulty_turn SystemExit]) = Some (Raise SystemExit) /\
  map sessions_session_end
      (sessions (snd (run [Samples.faulty_turn SystemExit])))
  = [Some "2024-01-01T10:00:09"].
Proof. repeat split. Qed.

(** A run that is still listening has not closed its session. *)
Example main_still_listening :
  fst (run [Samples.balance_turn; Samples.heard_turn ""]) = None /\
  map sessions_session_end
      (sessions (snd (run [Samples.balance_turn; Samples.heard_turn ""])))
  = [None].
Proof. repeat split. Qed.

End ExitPaths.

(** C5 at the input where the code departs from it: [start_session] has
    run, and the user interrupts while the greeting is played, before the
    [try] block is entered.  [main] ends with [KeyboardInterrupt] and the
    session it opened still has a null [session_end]. *)
Theorem main_interrupted_greeting_leaves_session_open
    (DEFAULT_LANGUAGE : string) (MAX_CONTEXT_MESSAGES : Z)
    (SUPPORTED_LANG_CODES_FOR_TTS : list string)
    (strip_lower : string -> string) :
  exists d',
    App.main DEFAULT_LANGUAGE MAX_CONTEXT_MESSAGES
      SUPPORTED_LANG_CODES_FOR_TTS strip_lower "u1"
      Samples.interrupted_greeting (init_db None)
    = (Some (Raise KeyboardInterrupt), d') /\
    sessions d'
    = [mk_sessions_row 1 "u1" "2024-01-01T10:00:01" None] /\
    open_sessions "u1" d' <> [].
Proof.
  eexists. split; [vm_compute; reflexivity|].
  split; [reflexivity|]. discriminate.
Qed.

(** * Further properties of the store *)

Section StoreCalls.

Lemma wf_run_call (c : call) (d : db) : wf d -> wf (run_call c d).
Proof.
  destruct c; simpl;
    auto using wf_create_user_profile, wf_update_user_preferences,
      wf_start_session, wf_end_session, wf_save_message.
Qed.

Lemma find_has_user (user_id : string) (d : db) :
  has_user user_id d = true <->
  exists r, find (fun r => String.eqb (users_user_id r) user_id) (users d)
            = Some r.
Proof.
  unfold has_user. split.
  - intros H. apply existsb_exists in H as (r & Hin & Hr).
    destruct (find _ (users d)) as [r'|] eqn:F; eauto.
    eapply find_none in F; eauto. congruence.
  - intros (r & F). apply find_some in F as [Hin Hr].
    apply existsb_exists. eauto.
Qed.

Lemma find_app_users (f : users_row -> bool) (l l' : list users_row) :
  find f (l ++ l') = match find f l with
                     | Some r => Some r
                     | None => find f l'
                     end.
Proof.
  induction l as [|x l IH]; simpl; auto. now destruct (f x).
Qed.

Lemma find_map_update (user_id v : string) (g : users_row -> users_row)
    (rows : list users_row) :
  (forall r, users_user_id (g r) = users_user_id r) ->
  find (fun r => String.eqb (users_user_id r) v)
       (map (fun r => if String.eqb (users_user_id r) user_id
                      then g r else r) rows)
  = option_map (fun r => if String.eqb (users_user_id r) user_id
                         then g r else r)
               (find (fun r => String.eqb (users_user_id r) v) rows).
Proof.
  intros Hg. induction rows as [|r rows IH]; simpl; auto.
  destruct (String.eqb (users_user_id r) user_id) eqn:E; rewrite ?Hg;
    destruct (String.eqb (users_user_id r) v) eqn:F; simpl; auto;
    now rewrite E.
Qed.

End StoreCalls.

(** X1: the schema invariant holds in every state the store can reach.
    From a well-formed database, any sequence of calls of the functions of
    [database.py] leaves rowids strictly increasing along each table and
    [user_id] unique in [users]. *)
Theorem run_calls_wf (cs : list call) (d : db) :
  wf d -> wf (run_calls cs d).
Proof.
  unfold run_calls. revert d.
  induction cs as [|c cs IH]; simpl; auto using wf_run_call.
Qed.

Lemma run_calls_wf_witness :
  wf (run_calls
        [Call_create_user_profile "u1" "U1" "en" "neutral" "t0";
         Call_create_user_profile "u1" "V" "hi" "warm" "t1";
         Call_start_session "u1" "t2";
         Call_save_message "u1" "user" "hello" "t3";
         Call_update_user_preferences "u1" (Some "hi") None;
         Call_end_session "u1" "t4"]
        Samples.scenario_B).
Proof. apply run_calls_wf. exact wf_scenario_B. Defined.

(** X2: looking a profile up after [create_user_profile] gives the profile
    that was already stored for the user when there was one, and otherwise
    the name, language and tone just given. *)
Theorem get_user_profile_create_user_profile
    (user_id name language tone now : string) (d : db) :
  get_user_profile user_id
    (create_user_profile user_id name language tone now d)
  = match get_user_profile user_id d with
    | Some p => Some p
    | None => Some (mk_profile name language tone)
    end.
Proof.
  unfold create_user_profile.
  destruct (has_user user_id d) eqn:E; unfold get_user_profile; simpl.
  - apply find_has_user in E as (r & ->). reflexivity.
  - rewrite find_app_users. simpl. rewrite String.eqb_refl.
    now destruct (find _ (users d)).
Qed.

(** X3: writing the profile of one user does not change what
    [get_user_profile] returns for another: neither [create_user_profile]
    nor [update_user_preferences] for [u] is seen by a reader of [v]. *)
Theorem profile_writes_isolated
    (u v name lang tone now : string) (language' tone' : option string)
    (d : db) :
  u <> v ->
  get_user_profile v (create_user_profile u name lang tone now d)
  = get_user_profile v d /\
  get_user_profile v (update_user_preferences u language' tone' d)
  = get_user_profile v d.
Proof.
  intros Hne. split.
  - unfold create_user_profile.
    destruct (has_user u d); unfold get_user_profile; simpl; auto.
    rewrite find_app_users. simpl.
    apply String.eqb_neq in Hne. rewrite Hne.
    now destruct (find _ (users d)).
  - assert (forall g, (forall r, users_user_id (g r) = users_user_id r) ->
              forall rows,
              option_map
                (fun r => mk_profile (users_name r)
                            (users_preferred_language r) (users_voice_tone r))
                (find (fun r => String.eqb (users_user_id r) v)
                   (map (fun r => if String.eqb (users_user_id r) u
                                  then g r else r) rows))
              = option_map
                  (fun r => mk_profile (users_name r)
                              (users_preferred_language r)
                              (users_voice_tone r))
                  (find (fun r => String.eqb (users_user_id r) v) rows))
      as Hfind.
    { intros g Hg rows. rewrite find_map_update by assumption.
      destruct (find _ rows) as [r|] eqn:F; simpl; auto.
      apply find_some in F as [_ F]. apply String.eqb_eq in F.
      destruct (String.eqb_spec (users_user_id r) u); auto. congruence. }
    assert (forall d0, get_user_profile v d0
              = option_map
                  (fun r => mk_profile (users_name r)
                              (users_preferred_language r)
                              (users_voice_tone r))
                  (find (fun r => String.eqb (users_user_id r) v)
                        (users d0))) as Hget.
    { intros d0. unfold get_user_profile. now destruct (find _ (users d0)). }
    rewrite !Hget. unfold update_user_preferences.
    destruct language' as [l|], tone' as [t|]; simpl;
      repeat match goal with |- context [negb ?b] => destruct b; simpl end;
      rewrite ?Hfind; auto.
Qed.

Lemma profile_writes_isolated_witness :
  get_user_profile "u2"
    (create_user_profile "u1" "U1" "en" "neutral" "t1"
       (create_user_profile "u2" "U2" "hi" "warm" "t0" Samples.scenario_B))
  = get_user_profile "u2"
      (create_user_profile "u2" "U2" "hi" "warm" "t0" Samples.scenario_B) /\
  get_user_profile "u2"
    (update_user_preferences "u1" (Some "bn") (Some "formal")
       (create_user_profile "u2" "U2" "hi" "warm" "t0" Samples.scenario_B))
  = get_user_profile "u2"
      (create_user_profile "u2" "U2" "hi" "warm" "t0" Samples.scenario_B).
Proof.
  apply (profile_writes_isolated "u1" "u2" "U1" "en" "neutral" "t1"
           (Some "bn") (Some "formal")).
  discriminate.
Defined.

(** X4: looking a profile up after [update_user_preferences] gives the
    stored profile with the language and the tone replaced by the supplied
    non-empty values; the name is kept, and no profile appears for a user
    that had none. *)
Theorem get_user_profile_update_user_preferences
    (user_id : string) (language tone : option string) (d : db) :
  get_user_profile user_id
    (update_user_preferences user_id language tone d)
  = option_map
      (fun p =>
         mk_profile (profile_name p)
           (match language with
            | Some l => if truthy language then l else profile_language p
            | None => profile_language p
            end)
           (match tone with
            | Some t => if truthy tone then t else profile_tone p
            | None => profile_tone p
            end))
      (get_user_profile user_id d).
Proof.
  assert (forall d0, get_user_profile user_id d0
            = option_map
                (fun r => mk_profile (users_name r)
                            (users_preferred_language r)
                            (users_voice_tone r))
                (find (fun r => String.eqb (users_user_id r) user_id)
                      (users d0))) as Hget.
  { intros d0. unfold get_user_profile. now destruct (find _ (users d0)). }
  rewrite !Hget. unfold update_user_preferences.
  destruct language as [l|], tone as [t|]; simpl;
    repeat match goal with |- context [negb ?b] => destruct b; simpl end;
    rewrite ?find_map_update by reflexivity;
    destruct (find _ (users d)) as [r|] eqn:F; simpl; auto;
    apply find_some in F as [_ F]; simpl; rewrite ?F; simpl; rewrite ?F;
    reflexivity.
Qed.

Section SessionCalls.

Lemma set_session_end_closed (user_id now : string) (r : sessions_row) :
  is_open_for user_id
    (if is_open_for user_id r then set_session_end now r else r) = false.
Proof.
  destruct (is_open_for user_id r) eqn:E; auto.
  unfold is_open_for; simpl. apply andb_false_r.
Qed.

Lemma is_open_for_other (u v now : string) (r : sessions_row) :
  u <> v ->
  is_open_for v (if is_open_for u r then set_session_end now r else r)
  = is_open_for v r.
Proof.
  intros Hne. destruct (is_open_for u r) eqn:E; auto.
  apply is_open_for_true in E as [E _].
  unfold is_open_for; simpl.
  assert (String.eqb (sessions_user_id r) v = false) as ->
      by (apply String.eqb_neq; congruence).
  reflexivity.
Qed.

End SessionCalls.

(** X5: closing is idempotent and never rewrites a recorded end: a second
    [end_session] for the same user, at whatever later time, returns the
    store the first one left. *)
Theorem end_session_idempotent (user_id now now' : string) (d : db) :
  end_session user_id now' (end_session user_id now d)
  = end_session user_id now d.
Proof.
  unfold end_session, set_sessions; simpl. f_equal.
  rewrite map_map. apply map_ext. intros r.
  now rewrite set_session_end_closed.
Qed.

(** X6: a session that is opened and then closed is stored as one new row,
    after the rows that were there, with the fresh rowid, the start time of
    the open and the end time of the close; the rows before it are what
    closing alone would have left. *)
Theorem start_then_end_session (user_id t1 t2 : string) (d : db) :
  sessions (end_session user_id t2 (start_session user_id t1 d))
  = sessions (end_session user_id t2 d)
    ++ [mk_sessions_row
          (next_rowid (sessions_seq d) (map sessions_id (sessions d)))
          user_id t1 (Some t2)].
Proof.
  unfold end_session, start_session; simpl.
  rewrite map_app; simpl. unfold is_open_for at 2; simpl.
  now rewrite String.eqb_refl.
Qed.

(** X7: opening or closing a session of one user leaves the open sessions
    of every other user as they were. *)
Theorem session_writes_isolated (u v now : string) (d : db) :
  u <> v ->
  open_sessions v (start_session u now d) = open_sessions v d /\
  open_sessions v (end_session u now d) = open_sessions v d.
Proof.
  intros Hne. unfold open_sessions. split.
  - unfold start_session; simpl. rewrite filter_app; simpl.
    unfold is_open_for at 2; simpl.
    apply String.eqb_neq in Hne. rewrite Hne. apply app_nil_r.
  - unfold end_session; simpl.
    induction (sessions d) as [|r rows IH]; simpl; auto.
    rewrite is_open_for_other by assumption.
    destruct (is_open_for v r) eqn:E; rewrite IH; auto.
    destruct (is_open_for u r) eqn:F; auto.
    apply is_open_for_true in E as [E _], F as [F _]. congruence.
Qed.

Lemma session_writes_isolated_witness :
  open_sessions "u1" (start_session "u2" "2024-01-01T11:00:00"
                                    Samples.two_open)
  = open_sessions "u1" Samples.two_open /\
  open_sessions "u1" (end_session "u2" "2024-01-01T11:00:00"
                                  Samples.two_open)
  = open_sessions "u1" Samples.two_open.
Proof.
  apply (session_writes_isolated "u2" "u1" "2024-01-01T11:00:00"
                                 Samples.two_open).
  discriminate.
Defined.

Section Windows.

Lemma lastn_app_short {A : Type} (n : nat) (old new : list A) :
  (n <= List.length new)%nat -> lastn n (old ++ new) = lastn n new.
Proof.
  intros H. unfold lastn. rewrite length_app, skipn_app.
  replace (List.length old + List.length new - n - List.length old)%nat
    with (List.length new - n)%nat by lia.
  rewrite skipn_all2 by lia. reflexivity.
Qed.

End Windows.

(** X9: the context window of a user depends on the conversation table
    only: creating or updating a profile and opening or closing a session,
    for any user, leave [get_recent_context] of every user and every limit
    as it was. *)
Theorem get_recent_context_frame
    (user_id u name lang tone now : string) (language' tone' : option string)
    (limit : Z) (d : db) :
  get_recent_context user_id limit
    (create_user_profile u name lang tone now d)
  = get_recent_context user_id limit d /\
  get_recent_context user_id limit
    (update_user_preferences u language' tone' d)
  = get_recent_context user_id limit d /\
  get_recent_context user_id limit (start_session u now d)
  = get_recent_context user_id limit d /\
  get_recent_context user_id limit (end_session u now d)
  = get_recent_context user_id limit d.
Proof.
  unfold get_recent_context, select_recent. repeat split.
  - unfold create_user_profile. now destruct (has_user u d).
  - destruct (update_user_preferences_tables u language' tone' d)
      as (-> & _). reflexivity.
Qed.

(** * Properties of the string helpers *)

Section TextFacts.

Local Open Scope string_scope.

Lemma append_assoc (a b c : string) : (a ++ b) ++ c = a ++ (b ++ c).
Proof. induction a as [|x a IH]; simpl; congruence. Qed.

Lemma append_nil_r (a : string) : a ++ "" = a.
Proof. induction a as [|x a IH]; simpl; congruence. Qed.

Lemma length_append (a b : string) :
  String.length (a ++ b) = (String.length a + String.length b)%nat.
Proof. induction a as [|x a IH]; simpl; congruence. Qed.

Lemma find_range (c : ascii) (s : string) :
  Text.find c s = -1 \/ 0 <= Text.find c s < Z.of_nat (String.length s).
Proof.
  induction s as [|x s IH]; simpl; auto.
  destruct (Ascii.eqb x c); [right; lia|].
  destruct (Z.eqb_spec (Text.find c s) (-1)); auto. right. lia.
Qed.

Lemma find_app_first (c : ascii) (pre rest : string) :
  Text.find c pre = -1 ->
  Text.find c (pre ++ String c rest) = Z.of_nat (String.length pre).
Proof.
  induction pre as [|x pre IH]; simpl.
  - now rewrite Ascii.eqb_refl.
  - destruct (Ascii.eqb x c); [discriminate|].
    pose proof (find_range c pre) as Hr.
    destruct (Z.eqb_spec (Text.find c pre) (-1)) as [E|E]; [|lia].
    intros _. rewrite (IH E).
    destruct (Z.eqb_spec (Z.of_nat (String.length pre)) (-1)); lia.
Qed.

Lemma rfind_app_last (c : ascii) (s post : string) :
  Text.rfind c post = -1 ->
  Text.rfind c (s ++ String c post) = Z.of_nat (String.length s).
Proof.
  intros H. induction s as [|x s IH]; simpl.
  - now rewrite H, Ascii.eqb_refl.
  - rewrite IH.
    destruct (Z.eqb_spec (Z.of_nat (String.length s)) (-1)); lia.
Qed.

Lemma substring_skip (pre s : string) (m : nat) :
  String.substring (String.length pre) m (pre ++ s) = String.substring 0 m s.
Proof. induction pre as [|x pre IH]; simpl; auto. Qed.

Lemma substring_take (a b : string) :
  String.substring 0 (String.length a) (a ++ b) = a.
Proof.
  induction a as [|x a IH]; simpl.
  - now destruct b.
  - now rewrite IH.
Qed.

Lemma substring_none (n : nat) (s : string) : String.substring n 0 s = "".
Proof.
  revert n. induction s as [|x s IH]; intros [|n]; simpl; auto.
Qed.

Lemma rstrip_replicate (c : ascii) (n : nat) :
  Text.rstrip c (Text.replicate n c) = "".
Proof.
  induction n as [|n IH]; simpl; auto.
  now rewrite IH, Ascii.eqb_refl.
Qed.

Lemma rstrip_app_replicate (c : ascii) (s : string) (n : nat) :
  Text.rstrip c (s ++ Text.replicate n c) = Text.rstrip c s.
Proof.
  induction s as [|x s IH]; simpl.
  - apply rstrip_replicate.
  - now rewrite IH.
Qed.

End TextFacts.

(** X11: [extract_json] cuts the answer to the outermost braces.  For an
    answer made of a text without ['{'], an opening brace, any text, a
    closing brace and a text without ['}'], what is handed to the JSON
    parser is the part from that opening to that closing brace. *)
Theorem extract_json_braces (pre mid post : string) :
  Text.find "{" pre = -1 -> Text.rfind "}" post = -1 ->
  Text.extract_json (pre ++ "{" ++ mid ++ "}" ++ post)%string
  = ("{" ++ mid ++ "}")%string.
Proof.
  intros Hpre Hpost. unfold Text.extract_json. simpl.
  rewrite (find_app_first "{" pre _ Hpre).
  assert (Text.rfind "}" (pre ++ String "{" (mid ++ String "}" post))
          = Z.of_nat (String.length (pre ++ String "{" mid))) as Hlast.
  { rewrite <- (rfind_app_last "}" (pre ++ String "{" mid) post Hpost).
    f_equal. now rewrite append_assoc. }
  rewrite Hlast.
  destruct (Z.eqb_spec (Z.of_nat (String.length pre)) (-1)); [lia|].
  destruct (Z.eqb_spec (Z.of_nat (String.length (pre ++ String "{" mid)))
                       (-1)); [lia|].
  simpl. unfold Text.slice. rewrite Nat2Z.id, substring_skip.
  assert (String "{" (mid ++ String "}" post)
          = (String "{" (mid ++ "}") ++ post)%string) as ->
      by (simpl; now rewrite append_assoc).
  etransitivity; [|apply (substring_take (String "{" (mid ++ "}")) post)].
  f_equal. simpl. rewrite !length_append. simpl. lia.
Qed.

Lemma extract_json_braces_witness :
  Text.extract_json
    ("Sure, here it is: " ++ "{"
     ++ " intent: check_balance, details: {} " ++ "}" ++ " Anything else?")
  = ("{" ++ " intent: check_balance, details: {} " ++ "}")%string.
Proof.
  apply (extract_json_braces "Sure, here it is: "
           " intent: check_balance, details: {} " " Anything else?");
    reflexivity.
Defined.

(** X12: when the last ['}'] of the answer comes before its first ['{'],
    the slice is empty: [extract_json] hands the empty string to the JSON
    parser. *)
Theorem extract_json_reversed (raw : string) :
  0 <= Text.rfind "}" raw < Text.find "{" raw ->
  Text.extract_json raw = "".
Proof.
  intros H. unfold Text.extract_json.
  destruct (Z.eqb_spec (Text.find "{" raw) (-1)); [lia|].
  destruct (Z.eqb_spec (Text.rfind "}" raw) (-1)); [lia|].
  simpl. unfold Text.slice.
  replace (Z.to_nat (Text.rfind "}" raw + 1 - Text.find "{" raw))
    with 0%nat by lia.
  apply substring_none.
Qed.

Lemma extract_json_reversed_witness : Text.extract_json "done } then {" = "".
Proof. apply (extract_json_reversed "done } then {"). simpl. lia. Defined.

(** X13: the backend URLs do not depend on how many slashes end
    [BACKEND_URL]: with any number of them added, the user-data URL and the
    intent endpoint are the same. *)
Theorem urls_ignore_trailing_slashes
    (BACKEND_URL user_id : string) (n : nat) :
  Text.user_data_url (BACKEND_URL ++ Text.replicate n "/") user_id
  = Text.user_data_url BACKEND_URL user_id /\
  Text.INTENT_ENDPOINT (BACKEND_URL ++ Text.replicate n "/")
  = Text.INTENT_ENDPOINT BACKEND_URL.
Proof.
  unfold Text.user_data_url, Text.INTENT_ENDPOINT.
  now rewrite rstrip_app_replicate.
Qed.

(** X14: [rstrip] removes the trailing run of the character and nothing
    else: the text is the result followed by copies of the character, and
    the result does not end with it. *)
Theorem rstrip_spec (c : ascii) (s : string) :
  (exists n, s = (Text.rstrip c s ++ Text.replicate n c)%string) /\
  (forall r, Text.rstrip c s <> (r ++ String c "")%string).
Proof.
  induction s as [|x s [(n & Hn) Hend]]; simpl.
  - split; [exists 0%nat; reflexivity|]. intros [|y r]; discriminate.
  - destruct (Text.rstrip c s) as [|y r'] eqn:E.
    + destruct (Ascii.eqb_spec x c) as [->|Hx].
      * split; [exists (S n); simpl in *; congruence|].
        intros [|y r]; discriminate.
      * split; [exists n; simpl in *; congruence|].
        intros [|y [|z r]]; simpl; try discriminate. congruence.
    + split; [exists n; simpl in *; congruence|].
      intros [|z r]; simpl; [discriminate|].
      intros [= _ H]. exact (Hend r H).
Qed.

(** X15: the default display name, [user_id.split('@')[0]], contains no
    ['@'], and the user id is that name, alone or followed by ['@'] and the
    rest. *)
Theorem before_at_spec (user_id : string) :
  Text.find "@" (App.before_at user_id) = -1 /\
  (user_id = App.before_at user_id \/
   exists rest, user_id = (App.before_at user_id ++ "@" ++ rest)%string).
Proof.
  induction user_id as [|x s [Hfind Hsplit]]; simpl; auto.
  destruct (Ascii.eqb_spec x "@") as [->|Hx]; simpl.
  - split; auto. right. eauto.
  - apply Ascii.eqb_neq in Hx. rewrite Hx, Hfind. simpl. split; auto.
    destruct Hsplit as [<-|(rest & Hrest)]; auto.
    right. exists rest. simpl in *. now f_equal.
Qed.

(** * Properties of the voice loop *)

(** ** Relating the store before and after a computation *)

Section Steps.

Variable R : db -> db -> Prop.
Hypothesis R_refl : forall d, R d d.
Hypothesis R_trans : forall d1 d2 d3, R d1 d2 -> R d2 d3 -> R d1 d3.

Lemma steps_ret {A : Type} (a : A) : Frame.steps R (App.ret a).
Proof. intros d. apply R_refl. Qed.

Lemma steps_raise {A : Type} (e : exn) : Frame.steps R (@App.raise A e).
Proof. intros d. apply R_refl. Qed.

Lemma steps_listening {A : Type} : Frame.steps R (@App.listening A).
Proof. intros d. apply R_refl. Qed.

Lemma steps_ext {A : Type} (o : result A) : Frame.steps R (App.ext o).
Proof. intros d. apply R_refl. Qed.

Lemma steps_query {A : Type} (f : db -> A) : Frame.steps R (App.query f).
Proof. intros d. apply R_refl. Qed.

Lemma steps_query_result {A : Type} (f : db -> result A) :
  Frame.steps R (App.query_result f).
Proof. intros d. apply R_refl. Qed.

Lemma steps_store (f : db -> db) :
  (forall d, R d (f d)) -> Frame.steps R (App.store f).
Proof. intros H d. apply H. Qed.

Lemma steps_bind {A B : Type} (m : App.M A) (k : A -> App.M B) :
  Frame.steps R m -> (forall a, Frame.steps R (k a)) ->
  Frame.steps R (App.bind m k).
Proof.
  intros Hm Hk d. unfold App.bind. specialize (Hm d).
  destruct (m d) as [[[a|e]|] d1]; simpl in *; auto.
  eapply R_trans; [exact Hm|apply Hk].
Qed.

Lemma steps_try_except {A : Type} (m : App.M A) (h : exn -> App.M A) :
  Frame.steps R m -> (forall e, Frame.steps R (h e)) ->
  Frame.steps R (App.try_except_Exception m h).
Proof.
  intros Hm Hh d. unfold App.try_except_Exception. specialize (Hm d).
  destruct (m d) as [[[a|e]|] d1]; simpl in *; auto.
  destruct (is_Exception e); simpl; auto.
  eapply R_trans; [exact Hm|apply Hh].
Qed.

Lemma steps_try_finally {A : Type} (m : App.M A) (f : App.M unit) :
  Frame.steps R m -> Frame.steps R f ->
  Frame.steps R (App.try_finally m f).
Proof.
  intros Hm Hf d. unfold App.try_finally. specialize (Hm d).
  destruct (m d) as [[r|] d1]; simpl in *; auto.
  specialize (Hf d1).
  destruct (f d1) as [[[u|e]|] d2]; simpl in *; eauto.
Qed.

Lemma steps_speak_text (text lang : string) (e : App.speak_env) :
  Frame.steps R (App.speak_text text lang e).
Proof.
  unfold App.speak_text.
  apply steps_bind.
  - repeat first [apply steps_try_except | apply steps_bind | intros ?
                 | apply steps_ext | apply steps_ret].
  - intros [|]; [|apply steps_ret].
    apply steps_try_finally;
      apply steps_try_except; intros; auto using steps_ext, steps_ret.
Qed.

Lemma steps_classify_from (chat : nat -> result App.classification)
    (attempt remaining : nat) (detected_lang : string) :
  Frame.steps R (App.classify_from chat attempt remaining detected_lang).
Proof.
  revert attempt. induction remaining as [|n IH]; intros attempt; simpl.
  - apply steps_ret.
  - apply steps_try_except; auto using steps_ext.
Qed.

Lemma steps_translate (chat : result string)
    (text target_lang source_lang : string) :
  Frame.steps R
    (App.translate_text_via_openai chat text target_lang source_lang).
Proof.
  unfold App.translate_text_via_openai.
  destruct (_ || _); [apply steps_ret|].
  apply steps_try_except; intros; auto using steps_ext, steps_ret.
Qed.

Lemma steps_fetch (get : result (Z * string)) :
  Frame.steps R (App.fetch_user_data_from_backend get).
Proof.
  unfold App.fetch_user_data_from_backend.
  apply steps_try_except; [|intros; apply steps_ret].
  apply steps_bind; [apply steps_ext|].
  intros resp. destruct (fst resp =? 200); apply steps_ret.
Qed.

Lemma steps_send (post : result (Z * option string)) :
  Frame.steps R (App.send_intent_payload_to_backend post).
Proof.
  unfold App.send_intent_payload_to_backend.
  apply steps_try_except; [|intros; apply steps_ret].
  apply steps_bind; [apply steps_ext|].
  intros resp. destruct (fst resp =? 200); apply steps_ret.
Qed.

Section Loop.

Variable DEFAULT_LANGUAGE : string.
Variable MAX_CONTEXT_MESSAGES : Z.
Variable SUPPORTED_LANG_CODES_FOR_TTS : list string.
Variable strip_lower : string -> string.
Variable user_id : string.

Hypothesis R_save_message :
  forall role message now d, R d (save_message user_id role message now d).

Lemma steps_turn (preferred_lang : string) (t : App.turn_env) :
  Frame.steps R
    (App.turn MAX_CONTEXT_MESSAGES SUPPORTED_LANG_CODES_FOR_TTS strip_lower
              user_id preferred_lang t).
Proof.
  unfold App.turn, App.transcribe_audio_file, App.detect_language_safe,
    App.classify_intent_and_entities.
  repeat first
    [ apply steps_ext | apply steps_ret | apply steps_query_result
    | apply steps_speak_text | apply steps_classify_from
    | apply steps_fetch | apply steps_send | apply steps_translate
    | apply steps_store; intro; apply R_save_message
    | apply steps_bind | apply steps_try_except
    | match goal with
      | |- forall _, _ => intro
      | |- Frame.steps _ (if ?b then _ else _) => destruct b
      | |- Frame.steps _ (let _ := _ in _) => cbv zeta
      end ].
Qed.

Lemma steps_while_True (preferred_lang : string) (ts : list App.turn_env) :
  Frame.steps R
    (App.while_True MAX_CONTEXT_MESSAGES SUPPORTED_LANG_CODES_FOR_TTS
                    strip_lower user_id preferred_lang ts).
Proof.
  induction ts as [|t ts IH]; simpl.
  - apply steps_listening.
  - apply steps_bind; [apply steps_turn|].
    intros [|]; [exact IH|apply steps_ret].
Qed.

Hypothesis R_end_session : forall now d, R d (end_session user_id now d).

Lemma steps_guarded_loop (preferred_lang : string) (env : App.main_env) :
  Frame.steps R
    (App.guarded_loop MAX_CONTEXT_MESSAGES SUPPORTED_LANG_CODES_FOR_TTS
                      strip_lower user_id preferred_lang env).
Proof.
  unfold App.guarded_loop. apply steps_try_finally.
  - intros d.
    pose proof (steps_while_True preferred_lang (App.turns env) d) as H.
    destruct (App.while_True _ _ _ _ _ _ d) as [[[[]|[| |n]]|] d1];
      exact H.
  - apply steps_store. intro. apply R_end_session.
Qed.

Hypothesis R_create_user_profile :
  forall name language tone now d,
    R d (create_user_profile user_id name language tone now d).
Hypothesis R_start_session : forall now d, R d (start_session user_id now d).

Lemma steps_main (env : App.main_env) :
  Frame.steps R
    (App.main DEFAULT_LANGUAGE MAX_CONTEXT_MESSAGES
              SUPPORTED_LANG_CODES_FOR_TTS strip_lower user_id env).
Proof.
  unfold App.main.
  destruct (String.eqb user_id ""); [apply steps_ret|].
  apply steps_bind; [apply steps_query|]. intros p.
  apply steps_bind.
  - destruct p; [apply steps_ret|].
    apply steps_bind; [|intro; apply steps_query].
    apply steps_store. intro. apply R_create_user_profile.
  - intros [p'|]; [|apply steps_raise].
    cbv zeta.
    repeat first
      [ apply steps_guarded_loop | apply steps_speak_text | apply steps_ext
      | apply steps_store; intro; apply R_start_session
      | apply steps_bind
      | match goal with |- forall _, _ => intro end ].
Qed.

End Loop.

End Steps.

(** ** The wrappers of the collaborators *)

Section Wrappers.

Lemma absorbs_try_ext {A : Type} (o : result A) (a : A) :
  Frame.absorbs (App.try_except_Exception (App.ext o) (fun _ => App.ret a)).
Proof.
  intros d. unfold App.try_except_Exception, App.ext, App.ret.
  destruct o as [x|[| |n]]; simpl; eexists; split; try reflexivity;
    discriminate.
Qed.

Lemma absorbs_classify_from (chat : nat -> result App.classification)
    (attempt remaining : nat) (detected_lang : string) :
  Frame.absorbs (App.classify_from chat attempt remaining detected_lang).
Proof.
  revert attempt. induction remaining as [|n IH]; intros attempt d; simpl.
  - eexists. split; [reflexivity|discriminate].
  - unfold App.try_except_Exception, App.ext.
    destruct (chat attempt) as [c|[| |name]]; simpl;
      try (eexists; split; [reflexivity|discriminate]).
    apply IH.
Qed.

Lemma classify_from_skips (chat : nat -> result App.classification)
    (k attempt remaining : nat) (detected_lang : string) (d : db) :
  (forall i, (i < k)%nat ->
             exists name, chat (attempt + i)%nat = Raise (Exception name)) ->
  (k <= remaining)%nat ->
  App.classify_from chat attempt remaining detected_lang d
  = App.classify_from chat (attempt + k) (remaining - k) detected_lang d.
Proof.
  revert attempt remaining. induction k as [|k IH]; intros attempt remaining.
  - intros _ _. now rewrite Nat.add_0_r, Nat.sub_0_r.
  - intros Hfail Hle. destruct remaining as [|n]; [lia|]. simpl.
    destruct (Hfail 0%nat) as (name & Hname); [lia|].
    rewrite Nat.add_0_r in Hname.
    unfold App.try_except_Exception at 1. unfold App.ext at 1.
    rewrite Hname. simpl.
    rewrite IH; [|intros i Hi|lia].
    + now replace (S attempt + k)%nat with (attempt + S k)%nat by lia.
    + replace (S attempt + i)%nat with (attempt + S i)%nat by lia.
      apply Hfail. lia.
Qed.

End Wrappers.

(** X16: [speak_text] never raises an [Exception] and never writes to the
    store: whatever the speech calls do, it returns, or lets through an
    exception that is not an [Exception] (a [KeyboardInterrupt], a
    [SystemExit]). *)
Theorem speak_text_absorbs (text lang : string) (e : App.speak_env) :
  Frame.absorbs (App.speak_text text lang e).
Proof.
  intros d.
  unfold App.speak_text, App.bind, App.try_except_Exception,
    App.try_finally, App.ext, App.ret.
  destruct e as [[[]|[| |n1]] [[]|[| |n2]] [[]|[| |n3]] [[]|[| |n4]]];
    simpl; eexists; (split; [reflexivity|discriminate]).
Qed.

(** X17: no failure of class [Exception] in a collaborator reaches the
    loop.  Transcription, language detection, classification, translation,
    the user-data request and the intent request each return a value or let
    through an exception that is not an [Exception], whatever the
    collaborator does, and none of them writes to the store. *)
Theorem collaborator_failures_absorbed
    (whisper detect chat_translate : result string)
    (chat : nat -> result App.classification) (max_retries : nat)
    (users_get : result (Z * string))
    (intent_post : result (Z * option string))
    (fallback detected_lang text target_lang source_lang : string) :
  Frame.absorbs (App.transcribe_audio_file whisper) /\
  Frame.absorbs (App.detect_language_safe detect fallback) /\
  Frame.absorbs
    (App.classify_intent_and_entities chat detected_lang max_retries) /\
  Frame.absorbs
    (App.translate_text_via_openai chat_translate text target_lang
                                   source_lang) /\
  Frame.absorbs (App.fetch_user_data_from_backend users_get) /\
  Frame.absorbs (App.send_intent_payload_to_backend intent_post).
Proof.
  repeat split.
  - apply absorbs_try_ext.
  - apply absorbs_try_ext.
  - apply absorbs_classify_from.
  - unfold App.translate_text_via_openai.
    destruct (_ || _); [|apply absorbs_try_ext].
    intros d. eexists. split; [reflexivity|discriminate].
  - intros d. unfold App.fetch_user_data_from_backend,
      App.try_except_Exception, App.bind, App.ext, App.ret.
    destruct users_get as [[code body]|[| |n]]; simpl;
      try destruct (code =? 200); eexists;
      (split; [reflexivity|discriminate]).
  - intros d. unfold App.send_intent_payload_to_backend,
      App.try_except_Exception, App.bind, App.ext, App.ret.
    destruct intent_post as [[code body]|[| |n]]; simpl;
      try destruct (code =? 200); eexists;
      (split; [reflexivity|discriminate]).
Qed.

(** X18: classification returns the first attempt that succeeds.  When the
    attempts before attempt [k] raise an [Exception] and attempt [k], one of
    the [max_retries] attempts, yields a classification, that classification
    is returned and the later attempts are not made. *)
Theorem classify_first_success
    (chat : nat -> result App.classification) (k max_retries : nat)
    (c : App.classification) (detected_lang : string) (d : db) :
  (forall i, (i < k)%nat -> exists name, chat i = Raise (Exception name)) ->
  chat k = Ok c -> (k < max_retries)%nat ->
  App.classify_intent_and_entities chat detected_lang max_retries d
  = (Some (Ok c), d).
Proof.
  intros Hfail Hk Hlt. unfold App.classify_intent_and_entities.
  rewrite (classify_from_skips chat k 0 max_retries) by (auto; lia).
  destruct (max_retries - k)%nat as [|n] eqn:E; [lia|]. simpl.
  unfold App.try_except_Exception, App.ext. now rewrite Hk.
Qed.

Lemma classify_first_success_witness :
  App.classify_intent_and_entities
    (fun i => match i with
              | 2%nat => Ok (App.mk_classification "check_balance" "hi" "{}")
              | _ => Raise (Exception "JSONDecodeError")
              end)
    "hi" 3 Samples.scenario_B
  = (Some (Ok (App.mk_classification "check_balance" "hi" "{}")),
     Samples.scenario_B).
Proof.
  apply (classify_first_success _ 2 3).
  - intros [|[|i]] Hi; [eexists; reflexivity|eexists; reflexivity|lia].
  - reflexivity.
  - lia.
Defined.

(** X19: classification gives up after [max_retries] failures.  When every
    one of the [max_retries] attempts raises an [Exception], the result is
    the intent ["unknown"] with the detected language and empty details;
    with [max_retries = 0] no attempt is made. *)
Theorem classify_gives_up
    (chat : nat -> result App.classification) (max_retries : nat)
    (detected_lang : string) (d : db) :
  (forall i, (i < max_retries)%nat ->
             exists name, chat i = Raise (Exception name)) ->
  App.classify_intent_and_entities chat detected_lang max_retries d
  = (Some (Ok (App.mk_classification "unknown" detected_lang "{}")), d).
Proof.
  intros Hfail. unfold App.classify_intent_and_entities.
  rewrite (classify_from_skips chat max_retries 0 max_retries)
    by (auto; lia).
  now rewrite Nat.sub_diag.
Qed.

Lemma classify_gives_up_witness :
  App.classify_intent_and_entities
    (fun i => match i with
              | 3%nat => Ok (App.mk_classification "check_balance" "hi" "{}")
              | _ => Raise (Exception "APIConnectionError")
              end)
    "hi" 3 Samples.scenario_B
  = (Some (Ok (App.mk_classification "unknown" "hi" "{}")),
     Samples.scenario_B).
Proof.
  apply (classify_gives_up _ 3).
  intros [|[|[|i]]] Hi; try (eexists; reflexivity). lia.
Defined.

(** ** One iteration of the loop *)

Section Turn.

Variable MAX_CONTEXT_MESSAGES : Z.
Variable SUPPORTED_LANG_CODES_FOR_TTS : list string.
Variable strip_lower : string -> string.
Variable user_id : string.

Lemma snd_bind_pure {A B : Type} (Q : db -> Prop) (m : App.M A)
    (k : A -> App.M B) (d : db) :
  Frame.pure m -> Q d ->
  (forall a, m d = (Some (Ok a), d) -> Q (snd (k a d))) ->
  Q (snd (App.bind m k d)).
Proof.
  intros Hm HQ Hk. unfold App.bind. specialize (Hm d).
  destruct (m d) as [[[a|e]|] d1]; simpl in *; subst; auto.
Qed.

Lemma snd_bind_store {B : Type} (f : db -> db) (k : unit -> App.M B)
    (d : db) :
  snd (App.bind (App.store f) k d) = snd (k tt (f d)).
Proof. reflexivity. Qed.

Lemma transcribe_audio_file_heard (whisper : result string) (text : string)
    (d d' : db) :
  App.transcribe_audio_file whisper d = (Some (Ok text), d') ->
  text <> "" -> whisper = Ok text.
Proof.
  unfold App.transcribe_audio_file, App.try_except_Exception, App.ext,
    App.ret.
  destruct whisper as [s|[| |n]]; simpl; intros [= <-]; congruence.
Qed.

Ltac pure_step :=
  cbv beta delta [Frame.pure App.transcribe_audio_file
                  App.detect_language_safe
                  App.classify_intent_and_entities];
  repeat first
    [ apply steps_ext | apply steps_ret | apply steps_query_result
    | apply steps_speak_text | apply steps_classify_from
    | apply steps_fetch | apply steps_send | apply steps_translate
    | apply steps_try_except
    | match goal with |- forall _, _ => intro end ];
  congruence.

(** X20: one iteration of the loop logs nothing, or the utterance, or the
    utterance and then the reply, and writes nothing else.  Whatever the
    collaborators do, the store after the iteration is the store before, or
    that store after [save_message] of the transcribed non-empty text with
    role ["user"], or that one after a further [save_message] with role
    ["assistant"]. *)
Theorem turn_effect_holds (preferred_lang : string) (t : App.turn_env)
    (d : db) :
  Frame.turn_effect user_id t d
    (snd (App.turn MAX_CONTEXT_MESSAGES SUPPORTED_LANG_CODES_FOR_TTS
                   strip_lower user_id preferred_lang t d)).
Proof.
  assert (Frame.turn_effect user_id t d d) as Hstay by (left; reflexivity).
  unfold App.turn.
  apply (snd_bind_pure (Frame.turn_effect user_id t d));
    [pure_step|exact Hstay|intros _ _].
  apply (snd_bind_pure (Frame.turn_effect user_id t d));
    [pure_step|exact Hstay|intros _ _].
  apply (snd_bind_pure (Frame.turn_effect user_id t d));
    [pure_step|exact Hstay|intros user_text Hheard].
  apply (snd_bind_pure (Frame.turn_effect user_id t d));
    [pure_step|exact Hstay|intros _ _].
  destruct (String.eqb_spec user_text "") as [E|E].
  { apply (snd_bind_pure (Frame.turn_effect user_id t d));
      [pure_step|exact Hstay|intros _ _; exact Hstay]. }
  destruct (App.mem (strip_lower user_text) App.exit_phrases).
  { apply (snd_bind_pure (Frame.turn_effect user_id t d));
      [pure_step|exact Hstay|intros _ _; exact Hstay]. }
  apply (snd_bind_pure (Frame.turn_effect user_id t d));
    [pure_step|exact Hstay|intros detected_lang _].
  cbv zeta. rewrite snd_bind_store.
  pose proof (transcribe_audio_file_heard _ _ _ _ Hheard E) as Hw.
  set (d1 := save_message user_id "user" user_text (App.now_user t) d).
  assert (Frame.turn_effect user_id t d d1) as Hsaid.
  { right. exists user_text. repeat split; auto. }
  do 5 (apply (snd_bind_pure (Frame.turn_effect user_id t d));
        [pure_step|exact Hsaid|intros ? _]).
  apply (snd_bind_pure (Frame.turn_effect user_id t d));
    [destruct (_ && _); pure_step|exact Hsaid|intros reply _].
  rewrite snd_bind_store.
  assert (Frame.turn_effect user_id t d
            (save_message user_id "assistant" reply (App.now_assistant t)
                          d1)) as Hreplied.
  { right. exists user_text. repeat split; auto. right. now exists reply. }
  apply (snd_bind_pure (Frame.turn_effect user_id t d));
    [pure_step|exact Hreplied|intros _ _; exact Hreplied].
Qed.

End Turn.

Section TurnOutcomes.

Variable MAX_CONTEXT_MESSAGES : Z.
Variable SUPPORTED_LANG_CODES_FOR_TTS : list string.
Variable strip_lower : string -> string.
Variable user_id : string.

Lemma bind_ok {A B : Type} (m : App.M A) (k : A -> App.M B) (d : db)
    (a : A) (d' : db) :
  m d = (Some (Ok a), d') -> App.bind m k d = k a d'.
Proof. intros H. unfold App.bind. now rewrite H. Qed.

Lemma bind_raise {A B : Type} (m : App.M A) (k : A -> App.M B) (d : db)
    (e : exn) (d' : db) :
  m d = (Some (Raise e), d') -> App.bind m k d = (Some (Raise e), d').
Proof. intros H. unfold App.bind. now rewrite H. Qed.

Lemma speak_text_cases (text lang : string) (e : App.speak_env) (d : db) :
  App.speak_text text lang e d = (Some (Ok tt), d) \/
  exists x, is_Exception x = false /\
            App.speak_text text lang e d = (Some (Raise x), d).
Proof.
  unfold App.speak_text, App.bind, App.try_except_Exception,
    App.try_finally, App.ext, App.ret.
  destruct e as [[[]|[| |n1]] [[]|[| |n2]] [[]|[| |n3]] [[]|[| |n4]]];
    simpl; auto; right; eexists; split; try reflexivity; reflexivity.
Qed.

Lemma remove_wav_cases (o : result unit) (d : db) :
  App.try_except_Exception (App.ext o) (fun _ => App.ret tt) d
  = (Some (Ok tt), d) \/
  exists x, is_Exception x = false /\
            App.try_except_Exception (App.ext o) (fun _ => App.ret tt) d
            = (Some (Raise x), d).
Proof.
  unfold App.try_except_Exception, App.ext, App.ret.
  destruct o as [[]|[| |n]]; simpl; auto; right; eexists; split;
    try reflexivity; reflexivity.
Qed.

(** X21: an exit phrase is not logged and ends the loop.  When the
    microphone and the temporary file work and the transcription, stripped
    and lowercased, is one of the exit phrases, the iteration leaves the
    store as it was and breaks out of the loop, unless an exception that is
    not an [Exception] interrupts it. *)
Theorem turn_exit_phrase (preferred_lang text : string) (t : App.turn_env)
    (d : db) :
  App.listen t = Ok tt -> App.write_wav t = Ok tt ->
  App.whisper t = Ok text -> text <> "" ->
  App.mem (strip_lower text) App.exit_phrases = true ->
  let r := App.turn MAX_CONTEXT_MESSAGES SUPPORTED_LANG_CODES_FOR_TTS
                    strip_lower user_id preferred_lang t d in
  r = (Some (Ok App.Break), d) \/
  exists x, is_Exception x = false /\ r = (Some (Raise x), d).
Proof.
  intros Hl Hw Hwh Hne Hexit. apply String.eqb_neq in Hne.
  unfold App.turn.
  rewrite (bind_ok _ _ d tt d) by (now rewrite Hl).
  rewrite (bind_ok _ _ d tt d) by (now rewrite Hw).
  rewrite (bind_ok _ _ d text d)
    by (unfold App.transcribe_audio_file; now rewrite Hwh).
  destruct (remove_wav_cases (App.remove_wav t) d) as [H|(x & Hx & H)].
  - rewrite (bind_ok _ _ _ _ _ H), Hne, Hexit.
    destruct (speak_text_cases
                (if String.prefix "en" preferred_lang
                 then "Goodbye." else "अलविदा।")
                preferred_lang (App.speak_goodbye t) d)
      as [H2|(x & Hx & H2)].
    + rewrite (bind_ok _ _ _ _ _ H2). now left.
    + rewrite (bind_raise _ _ _ _ _ H2). eauto.
  - rewrite (bind_raise _ _ _ _ _ H). eauto.
Qed.

(** X22: silence is not logged and the loop goes on.  When the microphone
    and the temporary file work and the transcription is empty, or fails
    with an [Exception], the iteration leaves the store as it was and
    continues with the next one, unless an exception that is not an
    [Exception] interrupts it. *)
Theorem turn_silence (preferred_lang : string) (t : App.turn_env) (d : db) :
  App.listen t = Ok tt -> App.write_wav t = Ok tt ->
  (App.whisper t = Ok "" \/
   exists name, App.whisper t = Raise (Exception name)) ->
  let r := App.turn MAX_CONTEXT_MESSAGES SUPPORTED_LANG_CODES_FOR_TTS
                    strip_lower user_id preferred_lang t d in
  r = (Some (Ok App.Continue), d) \/
  exists x, is_Exception x = false /\ r = (Some (Raise x), d).
Proof.
  intros Hl Hw Hwh. unfold App.turn.
  rewrite (bind_ok _ _ d tt d) by (now rewrite Hl).
  rewrite (bind_ok _ _ d tt d) by (now rewrite Hw).
  rewrite (bind_ok _ _ d "" d)
    by (unfold App.transcribe_audio_file;
        destruct Hwh as [->|(name & ->)]; reflexivity).
  destruct (remove_wav_cases (App.remove_wav t) d) as [H|(x & Hx & H)].
  - rewrite (bind_ok _ _ _ _ _ H). simpl.
    destruct (speak_text_cases "I did not hear you. Please repeat."
                preferred_lang (App.speak_repeat t) d)
      as [H2|(x & Hx & H2)].
    + rewrite (bind_ok _ _ _ _ _ H2). now left.
    + rewrite (bind_raise _ _ _ _ _ H2). eauto.
  - rewrite (bind_raise _ _ _ _ _ H). eauto.
Qed.

End TurnOutcomes.

Lemma turn_exit_phrase_witness :
  App.turn 8 ["en"; "hi"] (fun s => s) "u1" "en" (Samples.heard_turn "exit")
           Samples.scenario_B
  = (Some (Ok App.Break), Samples.scenario_B) \/
  exists x, is_Exception x = false /\
            App.turn 8 ["en"; "hi"] (fun s => s) "u1" "en"
                     (Samples.heard_turn "exit") Samples.scenario_B
            = (Some (Raise x), Samples.scenario_B).
Proof.
  apply (turn_exit_phrase 8 ["en"; "hi"] (fun s => s) "u1" "en" "exit"
           (Samples.heard_turn "exit") Samples.scenario_B);
    try reflexivity.
  discriminate.
Defined.

Lemma turn_silence_witness :
  App.turn 8 ["en"; "hi"] (fun s => s) "u1" "en" (Samples.heard_turn "")
           Samples.scenario_B
  = (Some (Ok App.Continue), Samples.scenario_B) \/
  exists x, is_Exception x = false /\
            App.turn 8 ["en"; "hi"] (fun s => s) "u1" "en"
                     (Samples.heard_turn "") Samples.scenario_B
            = (Some (Raise x), Samples.scenario_B).
Proof.
  apply (turn_silence 8 ["en"; "hi"] (fun s => s) "u1" "en"
           (Samples.heard_turn "") Samples.scenario_B);
    try reflexivity.
  left. reflexivity.
Defined.

(** ** A run of [main] *)

Section SameRows.

Variables u v : string.
Hypothesis Hne : v <> u.

Lemma same_rows_refl (d : db) : Frame.same_rows_of v d d.
Proof. repeat split. Qed.

Lemma same_rows_trans (d1 d2 d3 : db) :
  Frame.same_rows_of v d1 d2 -> Frame.same_rows_of v d2 d3 ->
  Frame.same_rows_of v d1 d3.
Proof.
  unfold Frame.same_rows_of. intros (A1 & B1 & C1) (A2 & B2 & C2).
  repeat split; congruence.
Qed.

Lemma same_rows_save_message (role message now : string) (d : db) :
  Frame.same_rows_of v d (save_message u role message now d).
Proof.
  repeat split. unfold Frame.conversation_of, save_message; simpl.
  apply filter_snoc_other. congruence.
Qed.

Lemma same_rows_start_session (now : string) (d : db) :
  Frame.same_rows_of v d (start_session u now d).
Proof.
  repeat split. unfold Frame.sessions_of, start_session; simpl.
  rewrite filter_app; simpl.
  assert (String.eqb u v = false) as -> by (apply String.eqb_neq; congruence).
  apply app_nil_r.
Qed.

Lemma same_rows_end_session (now : string) (d : db) :
  Frame.same_rows_of v d (end_session u now d).
Proof.
  repeat split. unfold Frame.sessions_of, end_session; simpl.
  induction (sessions d) as [|r rows IH]; simpl; auto.
  destruct (is_open_for u r) eqn:E; simpl; rewrite IH; auto.
  apply is_open_for_true in E as [E _].
  assert (String.eqb (sessions_user_id r) v = false) as ->
      by (apply String.eqb_neq; congruence).
  reflexivity.
Qed.

Lemma same_rows_create_user_profile (name language tone now : string)
    (d : db) :
  Frame.same_rows_of v d (create_user_profile u name language tone now d).
Proof.
  unfold create_user_profile.
  destruct (has_user u d); repeat split.
  unfold Frame.users_of; simpl. rewrite filter_app; simpl.
  assert (String.eqb u v = false) as -> by (apply String.eqb_neq; congruence).
  apply app_nil_r.
Qed.

End SameRows.

Section Run.

Variable DEFAULT_LANGUAGE : string.
Variable MAX_CONTEXT_MESSAGES : Z.
Variable SUPPORTED_LANG_CODES_FOR_TTS : list string.
Variable strip_lower : string -> string.
Variable user_id : string.

(** X23: [main] keeps the schema invariant: run on a well-formed database,
    with any behaviour of the collaborators and at whatever point it ends
    or is left listening, it leaves a well-formed database. *)
Theorem main_keeps_wf (env : App.main_env) (d : db) :
  wf d -> wf (snd (App.main DEFAULT_LANGUAGE MAX_CONTEXT_MESSAGES
            SUPPORTED_LANG_CODES_FOR_TTS strip_lower user_id env d)).
Proof.
  apply (steps_main (fun d d' => wf d -> wf d')); auto;
    intros; auto using wf_save_message, wf_end_session,
      wf_create_user_profile, wf_start_session.
Qed.

(** X24: [main] is confined to its user.  For every other user, the
    profile rows, the conversation rows and the session rows are the same
    after the run as before, whatever the collaborators do. *)
Theorem main_confined_to_user (v : string) (env : App.main_env) (d : db) :
  v <> user_id -> Frame.same_rows_of v d (snd (App.main DEFAULT_LANGUAGE MAX_CONTEXT_MESSAGES
            SUPPORTED_LANG_CODES_FOR_TTS strip_lower user_id env d)).
Proof.
  intros Hne.
  apply (steps_main (Frame.same_rows_of v)); intros;
    eauto using same_rows_refl, same_rows_trans, same_rows_save_message,
      same_rows_end_session, same_rows_create_user_profile,
      same_rows_start_session.
Qed.

(** X25: [main] only appends to the conversation log, and only messages of
    its user: the conversation table after the run is the table before
    followed by rows whose [user_id] is the user of the run. *)
Theorem main_log_append_only (env : App.main_env) (d : db) :
  exists rows,
    conversation (snd (App.main DEFAULT_LANGUAGE MAX_CONTEXT_MESSAGES
            SUPPORTED_LANG_CODES_FOR_TTS strip_lower user_id env d)) = conversation d ++ rows /\
    Forall (fun r => conversation_user_id r = user_id) rows.
Proof.
  apply (steps_main
           (fun d d' => exists rows,
                conversation d' = conversation d ++ rows /\
                Forall (fun r => conversation_user_id r = user_id) rows)).
  - intros d0. exists []. now rewrite app_nil_r.
  - intros d1 d2 d3 (r1 & -> & F1) (r2 & -> & F2).
    exists (r1 ++ r2). rewrite app_assoc. split; auto.
    apply Forall_app; auto.
  - intros role message now d0. eexists. split; [reflexivity|].
    repeat constructor.
  - intros now d0. exists []. now rewrite app_nil_r.
  - intros name language tone now d0. exists []. rewrite app_nil_r.
    unfold create_user_profile. now destruct (has_user user_id d0).
  - intros now d0. exists []. now rewrite app_nil_r.
Qed.

Lemma get_user_profile_has_user (d : db) :
  has_user user_id d = true <-> exists p, get_user_profile user_id d = Some p.
Proof.
  rewrite find_has_user. unfold get_user_profile.
  destruct (find _ (users d)) as [r|]; split; intros (x & H);
    try discriminate; eauto.
Qed.

Ltac steps_rest :=
  cbv zeta;
  repeat match goal with
         | |- forall _, _ => intro
         | |- Frame.steps _ (App.bind _ _) => apply steps_bind
         | |- Frame.steps _ (App.store _) => apply steps_store
         | |- Frame.steps _ (App.ext _) => apply steps_ext
         | |- Frame.steps _ (App.speak_text _ _ _) => apply steps_speak_text
         | |- Frame.steps _ (App.guarded_loop _ _ _ _ _ _) =>
             apply steps_guarded_loop
         end;
  cbv beta in *; simpl; congruence.

(** X26: [main] creates the profile of its user when there is none and
    never changes a stored profile.  For a non-empty user id, the users
    table after the run is the table before when the user had a profile,
    and otherwise the table before followed by one row: the fresh rowid,
    the user id, the part of the user id before ['@'] as name,
    [DEFAULT_LANGUAGE], the tone ["neutral"] and the time of creation. *)
Theorem main_profile (env : App.main_env) (d : db) :
  user_id <> "" ->
  users (snd (App.main DEFAULT_LANGUAGE MAX_CONTEXT_MESSAGES
            SUPPORTED_LANG_CODES_FOR_TTS strip_lower user_id env d))
  = if has_user user_id d then users d
    else users d
         ++ [mk_users_row
               (next_rowid (users_seq d) (map users_id (users d)))
               user_id (App.before_at user_id) DEFAULT_LANGUAGE "neutral"
               (App.now_create env)].
Proof.
  intros Hid. apply String.eqb_neq in Hid. unfold App.main. rewrite Hid.
  rewrite (bind_ok _ _ d (get_user_profile user_id d) d) by reflexivity.
  destruct (has_user user_id d) eqn:E.
  - destruct (proj1 (get_user_profile_has_user d) E) as (p & ->).
    rewrite (bind_ok _ _ d (Some p) d) by reflexivity.
    match goal with
    | |- users (snd (?m d)) = _ =>
        assert (Frame.steps (fun a b => users b = users a) m) as Hs
          by steps_rest
    end.
    apply Hs.
  - destruct (get_user_profile user_id d) as [p|] eqn:G.
    { assert (has_user user_id d = true)
        by (apply get_user_profile_has_user; eauto). congruence. }
    set (d0 := create_user_profile user_id (App.before_at user_id)
                 DEFAULT_LANGUAGE "neutral" (App.now_create env) d).
    assert (has_user user_id d0 = true) as E0
        by apply has_user_create_user_profile.
    destruct (proj1 (get_user_profile_has_user d0) E0) as (p & Hp).
    rewrite (bind_ok _ _ d (Some p) d0)
      by (unfold App.bind, App.store, App.query; fold d0; now rewrite Hp).
    match goal with
    | |- users (snd (?m d0)) = _ =>
        assert (Frame.steps (fun a b => users b = users a) m) as Hs
          by steps_rest
    end.
    rewrite (Hs d0). unfold d0, create_user_profile. now rewrite E.
Qed.

Lemma guarded_loop_sessions (preferred_lang : string) (env : App.main_env)
    (d d' : db) (out : result unit) :
  App.guarded_loop MAX_CONTEXT_MESSAGES SUPPORTED_LANG_CODES_FOR_TTS
    strip_lower user_id preferred_lang env d = (Some out, d') ->
  sessions d' = sessions (end_session user_id (App.now_end env) d) /\
  (out = Ok tt \/ out = Raise SystemExit).
Proof.
  unfold App.guarded_loop, App.try_finally, App.store.
  pose proof (steps_while_True (fun a b => sessions b = sessions a)
                (fun a => eq_refl)
                (fun a b c H1 H2 => eq_trans H2 H1)
                MAX_CONTEXT_MESSAGES SUPPORTED_LANG_CODES_FOR_TTS
                strip_lower user_id (fun _ _ _ _ => eq_refl)
                preferred_lang (App.turns env) d) as Hs.
  destruct (App.while_True _ _ _ _ _ _ d) as [[[[]|[| |n]]|] d1];
    simpl in Hs; intros [= <- <-]; unfold end_session; simpl;
    rewrite Hs; auto.
Qed.

(** X27: inside the [try] block no [KeyboardInterrupt] and no [Exception]
    leaves the loop.  A run of the guarded loop that ends returns normally
    or lets a [SystemExit] through; both handlers swallow what they
    catch. *)
Theorem guarded_loop_swallows (preferred_lang : string)
    (env : App.main_env) (d d' : db) (out : result unit) :
  App.guarded_loop MAX_CONTEXT_MESSAGES SUPPORTED_LANG_CODES_FOR_TTS
    strip_lower user_id preferred_lang env d = (Some out, d') ->
  out = Ok tt \/ out = Raise SystemExit.
Proof.
  unfold App.guarded_loop, App.try_finally, App.store.
  destruct (App.while_True _ _ _ _ _ _ d) as [[[[]|[| |n]]|] d1];
    intros [= <- _]; auto.
Qed.

(** X28: a run closes, at its own end time, the session it opened and
    every session of its user that was still open.  For a non-empty user
    id, when the greeting is spoken, the recogniser is built and the run
    ends, the sessions table is the table before with the new session
    appended and then all open sessions of the user closed at the run's
    end time. *)
Theorem main_sessions (env : App.main_env) (d d' : db) (out : result unit) :
  user_id <> "" ->
  (forall text lang d0,
     App.speak_text text lang (App.speak_greeting env) d0
     = (Some (Ok tt), d0)) ->
  App.new_Recognizer env = Ok tt ->
  App.main DEFAULT_LANGUAGE MAX_CONTEXT_MESSAGES
    SUPPORTED_LANG_CODES_FOR_TTS strip_lower user_id env d
  = (Some out, d') ->
  sessions d'
  = sessions (end_session user_id (App.now_end env)
                (start_session user_id (App.now_start env) d)).
Proof.
  intros Hid Hg Hr. apply String.eqb_neq in Hid. unfold App.main.
  rewrite Hid.
  rewrite (bind_ok _ _ d (get_user_profile user_id d) d) by reflexivity.
  assert (forall p d0,
            sessions d0 = sessions d -> sessions_seq d0 = sessions_seq d ->
            (let preferred_lang := profile_language p in
             App.bind (App.store (start_session user_id (App.now_start env)))
               (fun _ =>
                  let greeting :=
                    if String.prefix "hi" preferred_lang
                    then "नमस्ते। कैसे मदद करूँ?"%string
                    else ("Hello " ++ profile_name p
                          ++ ". How can I help you?")%string in
                  App.bind (App.speak_text greeting preferred_lang
                                           (App.speak_greeting env))
                    (fun _ =>
                       App.bind (App.ext (App.new_Recognizer env))
                         (fun _ =>
                            App.guarded_loop MAX_CONTEXT_MESSAGES
                              SUPPORTED_LANG_CODES_FOR_TTS strip_lower
                              user_id preferred_lang env)))) d0
            = (Some out, d') ->
            sessions d'
            = sessions (end_session user_id (App.now_end env)
                          (start_session user_id (App.now_start env) d)))
    as Hrest.
  { intros p d0 Hs Hq. cbv zeta.
    rewrite (bind_ok _ _ d0 tt (start_session user_id (App.now_start env) d0))
      by reflexivity.
    rewrite (bind_ok _ _ _ tt _ (Hg _ _ _)).
    rewrite (bind_ok _ _ _ tt (start_session user_id (App.now_start env) d0))
      by (now rewrite Hr).
    intros H. apply guarded_loop_sessions in H as [-> _].
    unfold end_session, start_session; simpl. now rewrite Hs, Hq. }
  destruct (get_user_profile user_id d) as [p|] eqn:G.
  - rewrite (bind_ok _ _ d (Some p) d) by reflexivity.
    now apply Hrest.
  - set (d0 := create_user_profile user_id (App.before_at user_id)
                 DEFAULT_LANGUAGE "neutral" (App.now_create env) d).
    assert (has_user user_id d0 = true) as E0
        by apply has_user_create_user_profile.
    destruct (proj1 (get_user_profile_has_user d0) E0) as (p & Hp).
    rewrite (bind_ok _ _ d (Some p) d0)
      by (unfold App.bind, App.store, App.query; fold d0; now rewrite Hp).
    apply Hrest; unfold d0, create_user_profile;
      now destruct (has_user user_id d).
Qed.

End Run.

Lemma main_keeps_wf_witness :
  wf (snd (App.main "en" 8 ["en"; "hi"] (fun s => s) "u1"
             (Samples.run_of [Samples.balance_turn;
                              Samples.faulty_turn KeyboardInterrupt])
             Samples.scenario_B)).
Proof. apply main_keeps_wf. exact wf_scenario_B. Defined.

Lemma main_confined_to_user_witness :
  Frame.same_rows_of "u1" Samples.two_open
    (snd (App.main "en" 8 ["en"; "hi"] (fun s => s) "u2"
            (Samples.run_of [Samples.balance_turn; Samples.heard_turn "exit"])
            Samples.two_open)).
Proof. apply main_confined_to_user. discriminate. Defined.

Lemma main_profile_witness :
  users (snd (App.main "hi" 8 ["en"; "hi"] (fun s => s) "asha@example.com"
                (Samples.run_of [Samples.heard_turn "exit"])
                Samples.scenario_B))
  = if has_user "asha@example.com" Samples.scenario_B
    then users Samples.scenario_B
    else users Samples.scenario_B
         ++ [mk_users_row
               (next_rowid (users_seq Samples.scenario_B)
                           (map users_id (users Samples.scenario_B)))
               "asha@example.com" (App.before_at "asha@example.com") "hi"
               "neutral"
               (App.now_create (Samples.run_of [Samples.heard_turn "exit"]))].
Proof. apply main_profile. discriminate. Defined.

Lemma guarded_loop_swallows_witness :
  fst (App.guarded_loop 8 ["en"; "hi"] (fun s => s) "u1" "en"
         (Samples.run_of [Samples.balance_turn;
                          Samples.faulty_turn KeyboardInterrupt])
         Samples.two_open)
  = Some (Ok tt) /\
  (Ok tt = Ok tt \/ Ok tt = @Raise unit SystemExit).
Proof.
  split; [reflexivity|].
  apply (guarded_loop_swallows 8 ["en"; "hi"] (fun s => s) "u1" "en"
           (Samples.run_of [Samples.balance_turn;
                            Samples.faulty_turn KeyboardInterrupt])
           Samples.two_open
           (snd (App.guarded_loop 8 ["en"; "hi"] (fun s => s) "u1" "en"
                   (Samples.run_of [Samples.balance_turn;
                                    Samples.faulty_turn KeyboardInterrupt])
                   Samples.two_open))
           (Ok tt)).
  reflexivity.
Defined.

Lemma main_sessions_witness :
  sessions
    (snd (App.main "en" 8 ["en"; "hi"] (fun s => s) "u1"
            (Samples.run_of [Samples.balance_turn; Samples.heard_turn "exit"])
            Samples.two_open))
  = sessions
      (end_session "u1"
         (App.now_end
            (Samples.run_of [Samples.balance_turn;
                             Samples.heard_turn "exit"]))
         (start_session "u1"
            (App.now_start
               (Samples.run_of [Samples.balance_turn;
                                Samples.heard_turn "exit"]))
            Samples.two_open)).
Proof.
  apply (main_sessions "en" 8 ["en"; "hi"] (fun s => s) "u1"
           (Samples.run_of [Samples.balance_turn; Samples.heard_turn "exit"])
           Samples.two_open _ (Ok tt)).
  - discriminate.
  - intros text lang d0. reflexivity.
  - reflexivity.
  - reflexivity.
Defined.

(** * The context window under interleaved calls *)

Section Interleaved.

Lemma wf_run_calls (cs : list call) (d : db) : wf d -> wf (run_calls cs d).
Proof.
  unfold run_calls. revert d.
  induction cs as [|c cs IH]; simpl; auto using wf_run_call.
Qed.

Lemma wf_two_users : wf Samples.two_users.
Proof. apply wf_run_calls, wf_empty_db. Qed.

(** A call adds to the messages of a user exactly what it appends for that
    user. *)
Lemma messages_of_run_call (user_id : string) (c : call) (d : db) :
  messages_of user_id (run_call c d)
  = messages_of user_id d ++ appended_by user_id [c].
Proof.
  unfold messages_of, appended_by.
  destruct c; simpl; rewrite ?app_nil_r; auto.
  - unfold create_user_profile. now destruct (has_user user_id0 d).
  - now destruct (update_user_preferences_tables user_id0 language tone d)
      as (-> & _).
  - rewrite filter_app, map_app. simpl. unfold of_user at 2. simpl.
    now destruct (String.eqb user_id0 user_id).
Qed.

Lemma appended_by_cons (user_id : string) (c : call) (cs : list call) :
  appended_by user_id (c :: cs)
  = appended_by user_id [c] ++ appended_by user_id cs.
Proof. unfold appended_by. simpl. now rewrite app_nil_r. Qed.

Lemma messages_of_run_calls (user_id : string) (cs : list call) (d : db) :
  messages_of user_id (run_calls cs d)
  = messages_of user_id d ++ appended_by user_id cs.
Proof.
  unfold run_calls. revert d. induction cs as [|c cs IH]; intros d.
  - simpl. now rewrite app_nil_r.
  - simpl fold_left. rewrite IH, messages_of_run_call, <- app_assoc.
    now rewrite <- appended_by_cons.
Qed.

Lemma sorted_app_lt {A : Type} (key : A -> Z) (l1 l2 : list A) :
  StronglySorted Z.lt (map key (l1 ++ l2)) ->
  forall x y, In x l1 -> In y l2 -> key x < key y.
Proof.
  induction l1 as [|a l1 IH]; simpl; [tauto|].
  intros Hs x y [<-|Hx] Hy; inversion Hs as [|? ? Hs' Hall]; subst.
  - rewrite Forall_map, Forall_forall in Hall.
    apply Hall. apply in_or_app. now right.
  - now apply IH.
Qed.

(** The rows behind the window: on a stored database and for a limit that
    is not negative, the last [limit] conversation rows of the user. *)
Lemma get_recent_context_rows (user_id : string) (limit : Z) (d : db) :
  wf d -> 0 <= limit <= SQLITE_INT_MAX ->
  get_recent_context user_id limit d
  = Ok (map to_context_msg
          (lastn (Z.to_nat limit)
                 (filter (of_user user_id) (conversation d)))).
Proof.
  intros (_ & Hc & _) Hr. unfold get_recent_context.
  rewrite bind_int_in_range by (unfold SQLITE_INT_MIN; lia).
  unfold select_recent, sql_limit.
  rewrite order_by_desc_sorted by now apply sorted_filter.
  destruct (Z.ltb_spec limit 0); [lia|].
  now rewrite lastn_rev.
Qed.

End Interleaved.

(** C3: for every sequence of calls of the store, whatever else it contains
    (appends for other users, profile and session calls, reads), with [N]
    the number of its [save_message] calls for [user_id],
    [recent(user_id, N)] afterwards returns exactly the records of those [N]
    calls as [{role, content}] pairs in the order of the calls, oldest
    first. *)
Theorem get_recent_context_appends
    (user_id : string) (cs : list call) (d : db) :
  wf d ->
  Z.of_nat (List.length (appended_by user_id cs)) <= SQLITE_INT_MAX ->
  get_recent_context user_id
    (Z.of_nat (List.length (appended_by user_id cs))) (run_calls cs d)
  = Ok (appended_by user_id cs).
Proof.
  intros Hwf Hn.
  rewrite get_recent_context_window.
  - destruct (Z.ltb_spec (Z.of_nat (List.length (appended_by user_id cs)))
                         0); [lia|].
    f_equal. rewrite Nat2Z.id, messages_of_run_calls.
    rewrite lastn_app_short by lia. now apply lastn_all.
  - now apply wf_run_calls.
  - unfold SQLITE_INT_MIN. lia.
Qed.

Lemma get_recent_context_appends_witness :
  get_recent_context "u1" 3 (run_calls Samples.interleaved Samples.two_users)
  = Ok [mk_context_msg "user" "transfer 200 to Ravi";
        mk_context_msg "assistant" "transfer done";
        mk_context_msg "user" "bye"].
Proof.
  refine (get_recent_context_appends "u1" Samples.interleaved
            Samples.two_users wf_two_users _).
  unfold SQLITE_INT_MAX. simpl. lia.
Defined.

(** X8: the window slides, and holds the user's own messages only.  After
    any sequence of calls of the store, with [N] the number of its
    [save_message] calls for [user_id], [get_recent_context] with a limit
    [k] between 0 and [N] returns the last [k] of the messages those calls
    appended for the user, oldest first: the earlier history, the older of
    the new messages and every message of another user are left out. *)
Theorem get_recent_context_last_k
    (user_id : string) (cs : list call) (k : Z) (d : db) :
  wf d -> 0 <= k <= Z.of_nat (List.length (appended_by user_id cs)) ->
  k <= SQLITE_INT_MAX ->
  get_recent_context user_id k (run_calls cs d)
  = Ok (lastn (Z.to_nat k) (appended_by user_id cs)).
Proof.
  intros Hwf Hk Hmax.
  rewrite get_recent_context_window.
  - destruct (Z.ltb_spec k 0); [lia|]. f_equal.
    rewrite messages_of_run_calls. apply lastn_app_short. lia.
  - now apply wf_run_calls.
  - unfold SQLITE_INT_MIN. lia.
Qed.

Lemma get_recent_context_last_k_witness :
  get_recent_context "u1" 2 (run_calls Samples.interleaved Samples.two_users)
  = Ok [mk_context_msg "assistant" "transfer done";
        mk_context_msg "user" "bye"].
Proof.
  refine (get_recent_context_last_k "u1" Samples.interleaved 2
            Samples.two_users wf_two_users _ _).
  - simpl. lia.
  - unfold SQLITE_INT_MAX. lia.
Defined.

(** X10: a larger limit only adds older messages in front.  On a stored
    database and for limits [0 <= k <= k'], the conversation rows of the
    user split into an earlier part, a part [older] and a part [rows] such
    that the window of [k] messages is [rows], the window of [k'] messages
    is [older] followed by [rows], every row of [older] has a smaller [id]
    than every row of [rows], and the windows have [min k n] and
    [min k' n] messages for [n] the number of messages of the user. *)
Theorem get_recent_context_window_grows
    (user_id : string) (k k' : Z) (d : db) :
  wf d -> 0 <= k <= k' -> k' <= SQLITE_INT_MAX ->
  exists earlier older rows,
    filter (of_user user_id) (conversation d) = earlier ++ older ++ rows /\
    get_recent_context user_id k d = Ok (map to_context_msg rows) /\
    get_recent_context user_id k' d
    = Ok (map to_context_msg (older ++ rows)) /\
    (forall o r, In o older -> In r rows ->
                 conversation_id o < conversation_id r) /\
    List.length rows
    = Nat.min (Z.to_nat k)
        (List.length (filter (of_user user_id) (conversation d))) /\
    List.length (older ++ rows)
    = Nat.min (Z.to_nat k')
        (List.length (filter (of_user user_id) (conversation d))).
Proof.
  intros Hwf Hk Hmax.
  rewrite !get_recent_context_rows by (auto; lia).
  destruct Hwf as (_ & Hc & _).
  apply (sorted_filter conversation_id (of_user user_id)) in Hc.
  set (L := filter (of_user user_id) (conversation d)) in *.
  set (a := (List.length L - Z.to_nat k')%nat).
  set (b := (List.length L - Z.to_nat k)%nat).
  assert (a <= b)%nat as Hab by (unfold a, b; lia).
  assert (skipn a L = firstn (b - a) (skipn a L) ++ skipn b L) as Hsplit.
  { rewrite <- (firstn_skipn (b - a) (skipn a L)) at 1.
    rewrite skipn_skipn. now replace (b - a + a)%nat with b by lia. }
  exists (firstn a L), (firstn (b - a) (skipn a L)), (skipn b L).
  unfold lastn. fold a b. rewrite <- Hsplit.
  repeat split.
  - now rewrite firstn_skipn.
  - intros o r Ho Hr.
    rewrite <- (firstn_skipn a L), Hsplit in Hc.
    rewrite app_assoc in Hc.
    eapply (sorted_app_lt conversation_id); eauto.
    apply in_or_app. now right.
  - rewrite length_skipn. unfold b. lia.
  - rewrite length_skipn. unfold a. lia.
Qed.

Lemma get_recent_context_window_grows_witness :
  exists earlier older rows,
    filter (of_user "u1") (conversation Samples.two_users)
    = earlier ++ older ++ rows /\
    get_recent_context "u1" 1 Samples.two_users
    = Ok (map to_context_msg rows) /\
    get_recent_context "u1" 2 Samples.two_users
    = Ok (map to_context_msg (older ++ rows)) /\
    (forall o r, In o older -> In r rows ->
                 conversation_id o < conversation_id r) /\
    List.length rows
    = Nat.min (Z.to_nat 1)
        (List.length (filter (of_user "u1")
                             (conversation Samples.two_users))) /\
    List.length (older ++ rows)
    = Nat.min (Z.to_nat 2)
        (List.length (filter (of_user "u1")
                             (conversation Samples.two_users))).
Proof.
  apply (get_recent_context_window_grows "u1" 1 2 Samples.two_users).
  - exact wf_two_users.
  - lia.
  - unfold SQLITE_INT_MAX. lia.
Defined.
